(** * Filename preservation in the blob upload service

    A shallow embedding of [backend/src/services/blobService.ts] and of the
    display expression of [frontend/src/components/file_list.tsx].

    JavaScript strings are sequences of UTF-16 code units; Node.js buffers
    are sequences of bytes.  Both are modelled as lists of integers with the
    range of the unit stated where it matters.  The Node.js [Buffer]
    conversions the service calls ([Buffer.from(s)], [Buffer.from(s,
    'base64')], [buf.toString()], [buf.toString('base64')]) are platform
    functions, not code of the repository; they are modelled from the
    Node.js documentation and written with division and remainder where the
    platform uses shifts and masks. *)

From Stdlib Require Import ZArith List Bool Lia String Ascii Decimal DecimalString.
From Stdlib Require QArith DecimalZ.
From stdpp Require Import base option list gmap.

Local Open Scope Z_scope.

(** A string is the list of its UTF-16 code units, a buffer the list of its
    bytes. *)
Abbreviation jsstring := (list Z).
Abbreviation buffer := (list Z).

(** ** JavaScript strings *)

Module JS.

Definition is_code_unit (u : Z) : Prop := 0 <= u < 65536.

(** Every element is a 16-bit code unit. *)
Definition is_jsstring (s : jsstring) : Prop := Forall is_code_unit s.

(** An ASCII literal of the source as a JavaScript string. *)
Fixpoint lit (s : string) : jsstring :=
  match s with
  | EmptyString => []
  | String c r => Z.of_nat (nat_of_ascii c) :: lit r
  end.

Definition is_high_surrogate (u : Z) : bool := (55296 <=? u) && (u <=? 56319).
Definition is_low_surrogate (u : Z) : bool := (56320 <=? u) && (u <=? 57343).

(** The code point of a surrogate pair. *)
Definition pair_code_point (h l : Z) : Z :=
  65536 + (h - 55296) * 1024 + (l - 56320).

(** [String.prototype.isWellFormed]: no lone surrogate (and every unit in
    range). *)
Fixpoint isWellFormed (s : jsstring) : bool :=
  match s with
  | [] => true
  | u :: rest =>
      if is_high_surrogate u then
        match rest with
        | l :: rest' => is_low_surrogate l && isWellFormed rest'
        | [] => false
        end
      else if is_low_surrogate u then false
      else (0 <=? u) && (u <? 65536) && isWellFormed rest
  end.

(** [/[^\x00-\x7F]/.test(s)]: some code unit lies outside 0..127. *)
Definition is_ascii_unit (u : Z) : bool := (0 <=? u) && (u <=? 127).
Definition test_non_ascii (s : jsstring) : bool :=
  existsb (fun u => negb (is_ascii_unit u)) s.

(** [s.includes(c)] for a one-unit needle. *)
Definition includes (s : jsstring) (c : Z) : bool :=
  existsb (fun u => u =? c) s.

(** [s.lastIndexOf(c)] for a one-unit needle: the index of the last
    occurrence, or -1. *)
Fixpoint lastIndexOf (s : jsstring) (c : Z) : Z :=
  match s with
  | [] => -1
  | u :: rest =>
      let i := lastIndexOf rest c in
      if 0 <=? i then i + 1
      else if u =? c then 0
      else -1
  end.

(** [s.substring(start, end)]: arguments are clamped to [0, length] and
    swapped when start > end. *)
Definition clamp (n : Z) (len : nat) : nat :=
  if n <? 0 then 0%nat else Nat.min (Z.to_nat n) len.

Definition substring (s : jsstring) (start stop : Z) : jsstring :=
  let a := clamp start (length s) in
  let b := clamp stop (length s) in
  let lo := Nat.min a b in
  let hi := Nat.max a b in
  firstn (hi - lo) (skipn lo s).

(** [s.substring(start)]: to the end of the string. *)
Definition substring_from (s : jsstring) (start : Z) : jsstring :=
  skipn (clamp start (length s)) s.

(** Truthiness of a value of type [string | null | undefined]. *)
Definition truthy (v : option jsstring) : bool :=
  match v with
  | Some (_ :: _) => true
  | _ => false
  end.

(** [a || b] on such values. *)
Definition or_else (a b : option jsstring) : option jsstring :=
  if truthy a then a else b.

(** Rendering of an integer in a template literal. *)
Definition digit_unit (d : Z) : Z := 48 + d.

Fixpoint uint_units (d : Decimal.uint) : jsstring :=
  match d with
  | Decimal.Nil => []
  | Decimal.D0 r => digit_unit 0 :: uint_units r
  | Decimal.D1 r => digit_unit 1 :: uint_units r
  | Decimal.D2 r => digit_unit 2 :: uint_units r
  | Decimal.D3 r => digit_unit 3 :: uint_units r
  | Decimal.D4 r => digit_unit 4 :: uint_units r
  | Decimal.D5 r => digit_unit 5 :: uint_units r
  | Decimal.D6 r => digit_unit 6 :: uint_units r
  | Decimal.D7 r => digit_unit 7 :: uint_units r
  | Decimal.D8 r => digit_unit 8 :: uint_units r
  | Decimal.D9 r => digit_unit 9 :: uint_units r
  end.

Definition number_to_string (n : Z) : jsstring :=
  match Z.to_int n with
  | Decimal.Pos d => uint_units d
  | Decimal.Neg d => 45 :: uint_units d
  end.

End JS.

Import JS.

(** ** Node.js buffers *)

Module Buffer.

Definition is_byte (b : Z) : Prop := 0 <= b < 256.

(** The bytes that occur in UTF-8: none exceeds 244. *)
Definition is_utf8_byte (b : Z) : Prop := 0 <= b <= 244.

(** UTF-8 bytes of one code point. *)
Definition utf8_of_code_point (c : Z) : buffer :=
  if c <? 128 then [c]
  else if c <? 2048 then [192 + c / 64; 128 + c mod 64]
  else if c <? 65536 then
    [224 + c / 4096; 128 + (c / 64) mod 64; 128 + c mod 64]
  else
    [240 + c / 262144; 128 + (c / 4096) mod 64;
     128 + (c / 64) mod 64; 128 + c mod 64].

(** U+FFFD, as a code unit and as its three UTF-8 bytes. *)
Definition replacement : Z := 65533.
Definition replacement_bytes : buffer := [239; 191; 189].

(** [Buffer.from(s)] (UTF-8): surrogate pairs are combined, a lone
    surrogate is written as U+FFFD. *)
Fixpoint from_utf8 (s : jsstring) : buffer :=
  match s with
  | [] => []
  | u :: rest =>
      if is_high_surrogate u then
        match rest with
        | l :: rest' =>
            if is_low_surrogate l
            then utf8_of_code_point (pair_code_point u l) ++ from_utf8 rest'
            else replacement_bytes ++ from_utf8 rest
        | [] => replacement_bytes
        end
      else if is_low_surrogate u then replacement_bytes ++ from_utf8 rest
      else utf8_of_code_point u ++ from_utf8 rest
  end.

Definition is_continuation (b : Z) : bool := (128 <=? b) && (b <=? 191).

(** The range allowed for the byte after lead byte [b0] of a three-byte
    sequence (no overlong forms, no surrogates). *)
Definition second_of_three (b0 b1 : Z) : bool :=
  if b0 =? 224 then (160 <=? b1) && (b1 <=? 191)
  else if b0 =? 237 then (128 <=? b1) && (b1 <=? 159)
  else is_continuation b1.

(** The same for a four-byte sequence (no overlong forms, at most
    U+10FFFF). *)
Definition second_of_four (b0 b1 : Z) : bool :=
  if b0 =? 240 then (144 <=? b1) && (b1 <=? 191)
  else if b0 =? 244 then (128 <=? b1) && (b1 <=? 143)
  else is_continuation b1.

(** UTF-16 code units of a code point. *)
Definition units_of_code_point (c : Z) : jsstring :=
  if c <? 65536 then [c]
  else [55296 + (c - 65536) / 1024; 56320 + (c - 65536) mod 1024].

(** [buf.toString()] (UTF-8): never fails; every maximal ill-formed
    subsequence becomes one U+FFFD and decoding resumes at the byte that
    broke the sequence. *)
Fixpoint toString_utf8 (bs : buffer) : jsstring :=
  match bs with
  | [] => []
  | b0 :: r0 =>
      if (0 <=? b0) && (b0 <? 128) then b0 :: toString_utf8 r0
      else if (194 <=? b0) && (b0 <=? 223) then
        match r0 with
        | b1 :: r1 =>
            if is_continuation b1
            then ((b0 - 192) * 64 + (b1 - 128)) :: toString_utf8 r1
            else replacement :: toString_utf8 r0
        | [] => [replacement]
        end
      else if (224 <=? b0) && (b0 <=? 239) then
        match r0 with
        | b1 :: r1 =>
            if second_of_three b0 b1 then
              match r1 with
              | b2 :: r2 =>
                  if is_continuation b2
                  then ((b0 - 224) * 4096 + (b1 - 128) * 64 + (b2 - 128))
                         :: toString_utf8 r2
                  else replacement :: toString_utf8 r1
              | [] => [replacement]
              end
            else replacement :: toString_utf8 r0
        | [] => [replacement]
        end
      else if (240 <=? b0) && (b0 <=? 244) then
        match r0 with
        | b1 :: r1 =>
            if second_of_four b0 b1 then
              match r1 with
              | b2 :: r2 =>
                  if is_continuation b2 then
                    match r2 with
                    | b3 :: r3 =>
                        if is_continuation b3
                        then units_of_code_point
                               ((b0 - 240) * 262144 + (b1 - 128) * 4096
                                + (b2 - 128) * 64 + (b3 - 128))
                               ++ toString_utf8 r3
                        else replacement :: toString_utf8 r2
                    | [] => [replacement]
                    end
                  else replacement :: toString_utf8 r1
              | [] => [replacement]
              end
            else replacement :: toString_utf8 r0
        | [] => [replacement]
        end
      else replacement :: toString_utf8 r0
  end.

(** The base64 alphabet: the character of a six-bit value. *)
Definition base64_char (v : Z) : Z :=
  if v <? 26 then 65 + v
  else if v <? 52 then 97 + (v - 26)
  else if v <? 62 then 48 + (v - 52)
  else if v =? 62 then 43
  else 47.

Definition pad : Z := 61.

(** The characters [buf.toString('base64')] can write: letters, digits,
    '+', '/' and '='. *)
Definition in_alphabet (u : Z) : bool :=
  ((65 <=? u) && (u <=? 90)) || ((97 <=? u) && (u <=? 122))
  || ((48 <=? u) && (u <=? 57)) || (u =? 43) || (u =? 47) || (u =? pad).

(** [buf.toString('base64')]: standard alphabet, padded with '='. *)
Fixpoint toString_base64 (bs : buffer) : jsstring :=
  match bs with
  | [] => []
  | [a] => [base64_char (a / 4); base64_char ((a mod 4) * 16); pad; pad]
  | [a; b] =>
      [base64_char (a / 4); base64_char ((a mod 4) * 16 + b / 16);
       base64_char ((b mod 16) * 4); pad]
  | a :: b :: c :: rest =>
      [base64_char (a / 4); base64_char ((a mod 4) * 16 + b / 16);
       base64_char ((b mod 16) * 4 + c / 64); base64_char (c mod 64)]
        ++ toString_base64 rest
  end.

(** The six-bit value of a character; the decoder also accepts the
    URL-safe '-' and '_'. *)
Definition unbase64 (c : Z) : option Z :=
  if (65 <=? c) && (c <=? 90) then Some (c - 65)
  else if (97 <=? c) && (c <=? 122) then Some (c - 97 + 26)
  else if (48 <=? c) && (c <=? 57) then Some (c - 48 + 52)
  else if (c =? 43) || (c =? 45) then Some 62
  else if (c =? 47) || (c =? 95) then Some 63
  else None.

(** The six-bit values the decoder reads: it looks at the low byte of
    each code unit, skips what is not in the alphabet and stops at the
    first '='. *)
Fixpoint sextets (s : jsstring) : list Z :=
  match s with
  | [] => []
  | u :: rest =>
      let c := u mod 256 in
      match unbase64 c with
      | Some v => v :: sextets rest
      | None => if c =? pad then [] else sextets rest
      end
  end.

(** Four six-bit values give three bytes; a final group of three gives
    two, of two gives one, and a single left-over value gives none. *)
Fixpoint bytes_of_sextets (l : list Z) : buffer :=
  match l with
  | a :: b :: c :: d :: rest =>
      [a * 4 + b / 16; (b mod 16) * 16 + c / 4; (c mod 4) * 64 + d]
        ++ bytes_of_sextets rest
  | [a; b; c] => [a * 4 + b / 16; (b mod 16) * 16 + c / 4]
  | [a; b] => [a * 4 + b / 16]
  | _ => []
  end.

(** [Buffer.from(s, 'base64')]: never fails. *)
Definition from_base64 (s : jsstring) : buffer :=
  bytes_of_sextets (sextets s).

End Buffer.

(** ** The filename codec of the service *)

(** [Buffer.from(filePath).toString('base64')], line 76. *)
Definition encode (filePath : jsstring) : jsstring :=
  Buffer.toString_base64 (Buffer.from_utf8 filePath).

(** [Buffer.from(token, 'base64').toString()], lines 115, 141 and 162. *)
Definition decode (token : jsstring) : jsstring :=
  Buffer.toString_utf8 (Buffer.from_base64 token).

(** ** [encodeURIComponent] *)

Module URI.

Definition in_range (a u b : Z) : bool := (a <=? u) && (u <=? b).

(** Letters, digits and [- _ . ! ~ * ' ( )] are copied unchanged. *)
Definition is_unreserved (u : Z) : bool :=
  in_range 65 u 90 || in_range 97 u 122 || in_range 48 u 57
  || (u =? 45) || (u =? 95) || (u =? 46) || (u =? 33) || (u =? 126)
  || (u =? 42) || (u =? 39) || (u =? 40) || (u =? 41).

Definition hex_digit (d : Z) : Z := if d <? 10 then 48 + d else 55 + d.

Definition percent (b : Z) : jsstring :=
  [37; hex_digit (b / 16); hex_digit (b mod 16)].

(** [None] stands for the [URIError] thrown at a lone surrogate. *)
Fixpoint encodeURIComponent (s : jsstring) : option jsstring :=
  match s with
  | [] => Some []
  | u :: rest =>
      if is_unreserved u then cons u <$> encodeURIComponent rest
      else if is_high_surrogate u then
        match rest with
        | l :: rest' =>
            if is_low_surrogate l
            then app (flat_map percent
                        (Buffer.utf8_of_code_point (pair_code_point u l)))
                   <$> encodeURIComponent rest'
            else None
        | [] => None
        end
      else if is_low_surrogate u then None
      else app (flat_map percent (Buffer.utf8_of_code_point u))
             <$> encodeURIComponent rest
  end.

End URI.

(** ** The storage client the service is written against *)

(** The metadata of a blob: a JavaScript object used as a map from names to
    string values. *)
Abbreviation Metadata := (gmap jsstring jsstring).

(** Property access [metadata.key] on a value that may be [undefined]. *)
Definition property (metadata : option Metadata) (key : jsstring)
  : option jsstring :=
  metadata ≫= (fun m => m !! key).

(** Values thrown inside the service: the [URIError] of
    [encodeURIComponent] or an error of the client library. *)
Inductive thrown (E : Type) : Type :=
| URIError : thrown E
| ClientError : E -> thrown E.

Arguments URIError {E}.
Arguments ClientError {E} e.

(** The container client of [@azure/storage-blob], as far as the service
    uses it.  [S] is the state of the storage account and [E] the type of
    the errors the library raises. *)
Record ContainerClient (E S : Type) : Type := {
  blob_url : jsstring -> jsstring;
  upload : jsstring -> buffer -> jsstring -> Metadata -> S -> E + S;
  getProperties : jsstring -> S -> E + option Metadata;
  listBlobsFlat : S -> E + list jsstring
}.

Arguments blob_url {E S} c name.
Arguments upload {E S} c name content contentType metadata st.
Arguments getProperties {E S} c name st.
Arguments listBlobsFlat {E S} c st.

(** [BlobServiceClient.fromConnectionString] followed by
    [getContainerClient]. *)
Record Library (E S : Type) : Type := {
  fromConnectionString : jsstring -> E + (jsstring -> ContainerClient E S)
}.

Arguments fromConnectionString {E S} l connectionString.

(** What the clock and the random generator give during one upload:
    [new Date().getTime()], [new Date().toISOString()] and
    [Math.random().toString(36)]. *)
Record Ambient : Type := {
  getTime : Z;
  toISOString : jsstring;
  random36 : jsstring
}.

Module UploadResult.
Record t : Type := {
  url : jsstring;
  originalName : jsstring;
  decodedName : jsstring;
  blobName : jsstring
}.
End UploadResult.

Module ListEntry.
Record t : Type := {
  name : jsstring;
  url : jsstring;
  originalName : option jsstring;
  decodedName : option jsstring
}.
End ListEntry.

(** ** [blobService.ts] *)

Definition dot : Z := 46.

Definition key_originalFilename : jsstring := lit "originalFilename".
Definition key_originalNameUtf8 : jsstring := lit "originalNameUtf8".
Definition key_dateUploaded : jsstring := lit "dateUploaded".
Definition key_originalfilename : jsstring := lit "originalfilename".

Definition env_CONNECTION_STRING : jsstring :=
  lit "AZURE_STORAGE_CONNECTION_STRING".
Definition env_CONTAINER_NAME : jsstring :=
  lit "AZURE_STORAGE_CONTAINER_NAME".

Definition connection_string_not_set : jsstring :=
  lit "Azure Storage connection string is not set in environment variables.".

(** [process.env.X || fallback], lines 7 and 8. *)
Definition env_or (env : gmap jsstring jsstring) (var fallback : jsstring)
  : jsstring :=
  match or_else (env !! var) (Some fallback) with
  | Some v => v
  | None => fallback
  end.

Definition connectionString (env : gmap jsstring jsstring) : jsstring :=
  env_or env env_CONNECTION_STRING [].

Definition containerName (env : gmap jsstring jsstring) : jsstring :=
  env_or env env_CONTAINER_NAME (lit "rag-container").

(** Line 58. *)
Definition hasNonAsciiChars (filePath : jsstring) : bool :=
  test_non_ascii filePath.

(** Line 64. *)
Definition randomId (amb : Ambient) : jsstring :=
  substring (random36 amb) 2 15.

(** Line 65. *)
Definition extension (filePath : jsstring) : jsstring :=
  if includes filePath dot
  then substring_from filePath (lastIndexOf filePath dot)
  else [].

(** Lines 59 to 67. *)
Definition safeBlobName (amb : Ambient) (filePath : jsstring) : jsstring :=
  if hasNonAsciiChars filePath
  then lit "file-" ++ number_to_string (getTime amb) ++ lit "-"
         ++ randomId amb ++ extension filePath
  else filePath.

(** Lines 90 to 94. *)
Definition upload_metadata (amb : Ambient)
    (originalFilenameEncoded originalNameUtf8 : jsstring) : Metadata :=
  <[key_originalFilename := originalFilenameEncoded]>
    (<[key_originalNameUtf8 := originalNameUtf8]>
       (<[key_dateUploaded := toISOString amb]> ∅)).

Section Service.
Context {E S : Type}.

(** Module initialisation, lines 7 to 16: what is printed with
    [console.error], and the container client or the error raised while
    building it. *)
Definition load_module (lib : Library E S) (env : gmap jsstring jsstring)
  : list jsstring * (E + ContainerClient E S) :=
  let cs := connectionString env in
  let printed :=
    if truthy (Some cs) then [] else [connection_string_not_set] in
  (printed,
   match fromConnectionString lib cs with
   | inl e => inl e
   | inr serviceClient => inr (serviceClient (containerName env))
   end).

Variable containerClient : ContainerClient E S.

(** [uploadFileToBlob], lines 53 to 123.  The [catch] block prints the
    error and throws it again.  The properties read back at line 108 are
    printed and not used again. *)
Definition uploadFileToBlob (amb : Ambient) (filePath : jsstring)
    (fileBuffer : buffer) (contentType : jsstring) (st : S)
  : thrown E + (UploadResult.t * S) :=
  let safe := safeBlobName amb filePath in
  let originalFilenameEncoded := encode filePath in
  match URI.encodeURIComponent filePath with
  | None => inl URIError
  | Some originalNameUtf8 =>
      let metadata :=
        upload_metadata amb originalFilenameEncoded originalNameUtf8 in
      match upload containerClient safe fileBuffer contentType metadata st with
      | inl e => inl (ClientError e)
      | inr st' =>
          match getProperties containerClient safe st' with
          | inl e => inl (ClientError e)
          | inr properties_metadata =>
              inr ({| UploadResult.url := blob_url containerClient safe;
                      UploadResult.originalName := filePath;
                      UploadResult.decodedName :=
                        decode originalFilenameEncoded;
                      UploadResult.blobName := safe |}, st')
          end
      end
  end.

(** [getBlobMetadata], lines 130 to 134. *)
Definition getBlobMetadata (blobName : jsstring) (st : S)
  : E + option Metadata :=
  getProperties containerClient blobName st.

(** [getOriginalFileName], lines 136 to 148: every error becomes
    [null]. *)
Definition getOriginalFileName (blobName : jsstring) (st : S)
  : option jsstring :=
  match getBlobMetadata blobName st with
  | inl _ => None
  | inr metadata =>
      let token := property metadata key_originalFilename in
      if truthy token then decode <$> token else None
  end.

(** The body of the loop of [listBlobs], lines 154 to 173, once the
    metadata has been read.  Neither conversion inside the [try] block
    throws, so its [catch] block is never entered. *)
Definition list_entry (blobName : jsstring) (metadata : option Metadata)
  : ListEntry.t :=
  let token := property metadata key_originalfilename in
  {| ListEntry.name := blobName;
     ListEntry.url := blob_url containerClient blobName;
     ListEntry.originalName := if truthy token then token else None;
     ListEntry.decodedName :=
       if truthy token then decode <$> token else None |}.

(** The loop of [listBlobs] over the enumerated names; [blobs] is the
    array being filled.  An error of [getBlobMetadata] is not caught. *)
Fixpoint listBlobs_loop (names : list jsstring) (st : S)
    (blobs : list ListEntry.t) : E + list ListEntry.t :=
  match names with
  | [] => inr blobs
  | blobName :: rest =>
      match getBlobMetadata blobName st with
      | inl e => inl e
      | inr metadata =>
          listBlobs_loop rest st (blobs ++ [list_entry blobName metadata])
      end
  end.

(** [listBlobs], lines 150 to 177. *)
Definition listBlobs (st : S) : E + list ListEntry.t :=
  match listBlobsFlat containerClient st with
  | inl e => inl e
  | inr names => listBlobs_loop names st []
  end.

End Service.

(** ** [file_list.tsx], line 88 *)

(** [file.originalName || file.decodedName || file.name]. *)
Definition displayed_name (file : ListEntry.t) : option jsstring :=
  or_else (or_else (ListEntry.originalName file) (ListEntry.decodedName file))
          (Some (ListEntry.name file)).

(** ** Storage accounts to run the service against *)

Inductive RestError : Type :=
| BlobNotFound
| ServiceUnreachable
| InvalidConnectionString.

Record Blob : Type := {
  content : buffer;
  blobContentType : jsstring;
  metadata : option Metadata
}.

(** A container in memory.  [persist] is what the account keeps of the
    metadata it is given. *)
Definition memory_client (persist : Metadata -> option Metadata)
  : ContainerClient RestError (gmap jsstring Blob) :=
  {| blob_url := fun name =>
       lit "https://account.blob.core.windows.net/rag-container/" ++ name;
     upload := fun name content contentType metadata st =>
       inr (<[name := {| content := content;
                         blobContentType := contentType;
                         metadata := persist metadata |}]> st);
     getProperties := fun name st =>
       match st !! name with
       | Some blob => inr (metadata blob)
       | None => inl BlobNotFound
       end;
     listBlobsFlat := fun st => inr (map_to_list st).*1 |}.

(** Metadata kept exactly as written. *)
Definition verbatim (m : Metadata) : option Metadata := Some m.

Definition to_lower (u : Z) : Z :=
  if (65 <=? u) && (u <=? 90) then u + 32 else u.

(** Metadata names returned in lower case, as HTTP header names are. *)
Definition lower_case_names (m : Metadata) : option Metadata :=
  Some (list_to_map (prod_map (map to_lower) id <$> map_to_list m)).

(** Metadata not kept at all. *)
Definition dropped (m : Metadata) : option Metadata := None.

(** A client none of whose requests reaches the service. *)
Definition unreachable_client : ContainerClient RestError unit :=
  {| blob_url := fun name => name;
     upload := fun _ _ _ _ _ => inl ServiceUnreachable;
     getProperties := fun _ _ => inl ServiceUnreachable;
     listBlobsFlat := fun _ => inl ServiceUnreachable |}.

(** A library that builds a client from any connection string. *)
Definition lenient_library : Library RestError unit :=
  {| fromConnectionString := fun _ => inr (fun _ => unreachable_client) |}.

(** A library that rejects the empty connection string. *)
Definition strict_library : Library RestError unit :=
  {| fromConnectionString := fun cs =>
       match cs with
       | [] => inl InvalidConnectionString
       | _ => inr (fun _ => unreachable_client)
       end |}.

(** ** Sample data *)

(** The file name "ทดสอบภาษาไทย.txt". *)
Definition thai_txt : jsstring :=
  [3607; 3604; 3626; 3629; 3610; 3616; 3634; 3625; 3634; 3652; 3607; 3618;
   46; 116; 120; 116].

(** The file name "ทดสอบ.ไทย". *)
Definition thai_dot_thai : jsstring :=
  [3607; 3604; 3626; 3629; 3610; 46; 3652; 3607; 3618].

Definition sample_ambient : Ambient :=
  {| getTime := 1700000000000;
     toISOString := lit "2023-11-14T22:13:20.000Z";
     random36 := lit "0.4fzyo82mvyr" |}.

Definition blob_with (md : option Metadata) : Blob :=
  {| content := [];
     blobContentType := lit "application/octet-stream";
     metadata := md |}.

(** A container with a blob whose metadata holds a token written by
    [encode], one whose token decodes to a byte that is not UTF-8, one
    whose token has no base64 character at all, and one without
    metadata. *)
Definition corrupted_container : gmap jsstring Blob :=
  <[lit "good.txt" :=
      blob_with (Some {[ key_originalfilename := encode thai_txt ]})]>
    (<[lit "bad.bin" :=
         blob_with (Some {[ key_originalfilename := lit "/w==" ]})]>
       (<[lit "junk" :=
            blob_with (Some {[ key_originalfilename := lit "!!!!" ]})]>
          (<[lit "bare" := blob_with None]> ∅))).

(** A blob whose metadata, under the name the upload writes, holds a token
    that is not UTF-8. *)
Definition mangled_container : gmap jsstring Blob :=
  {[ lit "bad.bin" :=
       blob_with (Some {[ key_originalFilename := lit "/w==" ]}) ]}.

(** The container after a file named [filePath] has been uploaded to an
    empty account that keeps metadata as [persist] says. *)
Definition after_upload (persist : Metadata -> option Metadata)
    (filePath : jsstring) : gmap jsstring Blob :=
  match uploadFileToBlob (memory_client persist) sample_ambient filePath
          [37; 80; 68; 70] (lit "application/pdf") ∅ with
  | inr (_, st) => st
  | inl _ => ∅
  end.

(** ** The rest of the service and its callers *)

(** The requests [ensureContainerExists] makes: two on the service client
    and [createIfNotExists] on the container client. *)
Record AccountClient (E S : Type) : Type := {
  getAccountInfo : S -> E + jsstring;
  listContainers : S -> E + list jsstring;
  createIfNotExists : S -> E + S
}.

Arguments getAccountInfo {E S} a st.
Arguments listContainers {E S} a st.
Arguments createIfNotExists {E S} a st.

(** [a || b] on two strings. *)
Definition string_or (a b : jsstring) : jsstring :=
  match a with
  | [] => b
  | _ :: _ => a
  end.

(** [array.join(separator)]. *)
Fixpoint join (separator : jsstring) (array : list jsstring) : jsstring :=
  match array with
  | [] => []
  | [x] => x
  | x :: rest => x ++ separator ++ join separator rest
  end.

(** [file.originalName || file.name], the name handed to
    [handleFileClick] at line 79 of [file_list.tsx]. *)
Definition clicked_name (file : ListEntry.t) : option jsstring :=
  or_else (ListEntry.originalName file) (Some (ListEntry.name file)).

Module MulterFile.
Record t : Type := {
  originalname : jsstring;
  buffer : list Z;
  mimetype : jsstring;
  size : Z
}.
End MulterFile.

Module FileJson.
Record t : Type := {
  filename : jsstring;
  originalname : jsstring;
  decodedName : jsstring;
  blobName : jsstring;
  mimetype : jsstring;
  size : Z;
  url : jsstring
}.
End FileJson.

(** The JSON body of a response of the upload route.  [error] stands for
    the message of the value that was caught. *)
Inductive Body (E : Type) : Type :=
| Failure (message : jsstring) (error : option (thrown E))
| Success (message : jsstring) (file : FileJson.t).

Arguments Failure {E} message error.
Arguments Success {E} message file.

Record Response (E : Type) : Type := {
  status : Z;
  body : Body E
}.

Arguments status {E} r.
Arguments body {E} r.

Section Server.
Context {E S : Type}.
Variable account : AccountClient E S.
Variable containerClient : ContainerClient E S.

(** [ensureContainerExists], lines 18 to 51.  An error of
    [getAccountInfo] is caught at line 27 and printed; any other error is
    printed and thrown again. *)
Definition ensureContainerExists (st : S) : E + S :=
  let listing_and_creation :=
    match listContainers account st with
    | inl e => inl e
    | inr containers => createIfNotExists account st
    end in
  match getAccountInfo account st with
  | inl accountError => listing_and_creation
  | inr accountInfo => listing_and_creation
  end.

(** The handler of [POST /api/upload] in the server file.  The second
    component is the state of the account when the handler ends, unknown
    after a request to the account has failed (lines 103 to 185 of the
    server file).  The [console.log] of
    [encodeURIComponent(req.file.originalname)] sits between the two inner
    [try] blocks, so its [URIError] reaches the outer [catch]. *)
Definition post_upload (amb : Ambient) (req_file : option MulterFile.t)
    (st : S) : Response E * option S :=
  match req_file with
  | None =>
      ({| status := 400;
          body := Failure (lit "No file uploaded") None |}, Some st)
  | Some file =>
      match ensureContainerExists st with
      | inl containerError =>
          ({| status := 500;
              body := Failure (lit "Error with Azure Blob Storage container")
                        (Some (ClientError containerError)) |}, None)
      | inr st1 =>
          match URI.encodeURIComponent (MulterFile.originalname file) with
          | None =>
              ({| status := 500;
                  body := Failure
                            (lit "Internal server error during file upload")
                            (Some URIError) |}, Some st1)
          | Some _ =>
              match uploadFileToBlob containerClient amb
                      (MulterFile.originalname file) (MulterFile.buffer file)
                      (MulterFile.mimetype file) st1 with
              | inl uploadError =>
                  ({| status := 500;
                      body := Failure
                                (lit "Error uploading file to Azure Blob Storage")
                                (Some uploadError) |}, None)
              | inr (blobResult, st2) =>
                  ({| status := 200;
                      body := Success
                        (lit "File uploaded successfully to Azure Blob Storage")
                        {| FileJson.filename :=
                             UploadResult.originalName blobResult;
                           FileJson.originalname :=
                             MulterFile.originalname file;
                           FileJson.decodedName :=
                             string_or (UploadResult.decodedName blobResult)
                               (MulterFile.originalname file);
                           FileJson.blobName :=
                             UploadResult.blobName blobResult;
                           FileJson.mimetype := MulterFile.mimetype file;
                           FileJson.size := MulterFile.size file;
                           FileJson.url := UploadResult.url blobResult |} |},
                   Some st2)
              end
          end
      end
  end.

End Server.

(** An account in memory whose container exists. *)
Definition memory_account : AccountClient RestError (gmap jsstring Blob) :=
  {| getAccountInfo := fun _ => inr (lit "StorageV2");
     listContainers := fun _ => inr [lit "rag-container"];
     createIfNotExists := fun st => inr st |}.

(** An account whose requests about containers succeed, for a state that
    holds nothing. *)
Definition reachable_account : AccountClient RestError unit :=
  {| getAccountInfo := fun _ => inr (lit "StorageV2");
     listContainers := fun _ => inr [lit "rag-container"];
     createIfNotExists := fun st => inr st |}.

(** A container whose enumeration still names a blob that has been deleted
    since. *)
Definition stale_client : ContainerClient RestError (gmap jsstring Blob) :=
  {| blob_url := blob_url (memory_client verbatim);
     upload := upload (memory_client verbatim);
     getProperties := getProperties (memory_client verbatim);
     listBlobsFlat := fun st =>
       inr ((map_to_list st).*1 ++ [lit "deleted.bin"]) |}.

(** ** [upload_file.tsx] *)

Module UploadFile.

Record File : Type := {
  name : jsstring;
  type : jsstring;
  size : Z
}.

(** The two pieces of state [validateAndSetFile] writes. *)
Record State : Type := {
  file : option File;
  error : option jsstring
}.

(** [allowedFileTypes.includes(type)]. *)
Definition array_includes (array : list jsstring) (x : jsstring) : bool :=
  existsb (fun y => bool_decide (y = x)) array.

(** [selectedFile.size / 1024 / 1024].  Dividing an integer below 2^53 by a
    power of two is exact in JavaScript, so the quotient is the rational
    number. *)
Definition fileSizeInMB (selectedFile : File) : QArith_base.Q :=
  QArith_base.Qdiv
    (QArith_base.Qdiv (QArith_base.inject_Z (size selectedFile))
                      (QArith_base.inject_Z 1024))
    (QArith_base.inject_Z 1024).

(** [a > b] on such numbers. *)
Definition greater (a b : QArith_base.Q) : bool :=
  negb (QArith_base.Qle_bool a b).

(** [validateAndSetFile], lines 94 to 116, for a limit given as a whole
    number of megabytes. *)
Definition validateAndSetFile (allowedFileTypes : list jsstring)
    (maxFileSizeInMB : Z) (selectedFile : option File) (s : State) : State :=
  match selectedFile with
  | None => {| file := file s; error := Some (lit "No file selected") |}
  | Some f =>
      if negb (array_includes allowedFileTypes (type f)) then
        {| file := file s;
           error := Some (lit "Invalid file type. Allowed types are: "
                            ++ join (lit ", ") allowedFileTypes) |}
      else if greater (fileSizeInMB f) (QArith_base.inject_Z maxFileSizeInMB)
      then
        {| file := file s;
           error := Some (lit "File size exceeds "
                            ++ number_to_string maxFileSizeInMB
                            ++ lit " MB limit") |}
      else {| file := Some f; error := None |}
  end.

(** The update of the progress made every 200 ms, lines 132 to 140. *)
Definition progress_tick (prev : Z) : Z :=
  if 90 <=? prev then 90 else prev + 5.

(** The progress after [n] ticks. *)
Fixpoint progress_after (n : nat) (start : Z) : Z :=
  match n with
  | O => start
  | Datatypes.S n' => progress_tick (progress_after n' start)
  end.

End UploadFile.

(** * Properties *)

(** Division and remainder by constants are handed to [lia] as their
    Euclidean equations. *)
Ltac Zify.zify_post_hook ::= Z.to_euclidean_division_equations.

(** Settle an integer test whose outcome follows from the context. *)
Ltac settle_test :=
  match goal with
  | |- context [?a <=? ?b] =>
      first [ rewrite (proj2 (Z.leb_le a b)) by lia
            | rewrite (proj2 (Z.leb_gt a b)) by lia ]
  | |- context [?a <? ?b] =>
      first [ rewrite (proj2 (Z.ltb_lt a b)) by lia
            | rewrite (proj2 (Z.ltb_ge a b)) by lia ]
  | |- context [?a =? ?b] =>
      first [ rewrite (proj2 (Z.eqb_eq a b)) by lia
            | rewrite (proj2 (Z.eqb_neq a b)) by lia ]
  end.

Ltac settle_tests := repeat (settle_test; cbn [andb orb negb]).

Section ListInduction.
Context {A : Type} (P : list A -> Prop).

(** Induction that also gives the property for the tail of the tail. *)
Lemma list_ind_pair :
  P [] ->
  (forall a l, P l -> (forall b l', l = b :: l' -> P l') -> P (a :: l)) ->
  forall l, P l.
Proof.
  intros Hnil Hcons l.
  enough (P l /\ (forall b l', l = b :: l' -> P l')) as [H _] by exact H.
  induction l as [|a l [IH1 IH2]].
  - split; [exact Hnil | discriminate].
  - split.
    + apply Hcons; assumption.
    + intros b l' [= -> ->]. exact IH1.
Qed.

(** Induction three elements at a time. *)
Lemma list_ind_triple :
  P [] ->
  (forall a, P [a]) ->
  (forall a b, P [a; b]) ->
  (forall a b c l, P l -> P (a :: b :: c :: l)) ->
  forall l, P l.
Proof.
  intros H0 H1 H2 H3 l.
  enough (P l /\ (forall a, P (a :: l)) /\ (forall a b, P (a :: b :: l)))
    as [H _] by exact H.
  induction l as [|c l (IH0 & IH1 & IH2)].
  - repeat split; auto.
  - repeat split; auto.
Qed.
End ListInduction.

(** ** Base64 *)

Module Base64Facts.
Import Buffer.

Lemma base64_char_cases v :
  0 <= v < 64 ->
  (65 <= base64_char v <= 90 /\ v = base64_char v - 65)
  \/ (97 <= base64_char v <= 122 /\ v = base64_char v - 97 + 26)
  \/ (48 <= base64_char v <= 57 /\ v = base64_char v - 48 + 52)
  \/ (base64_char v = 43 /\ v = 62)
  \/ (base64_char v = 47 /\ v = 63).
Proof.
  intros Hv. unfold base64_char.
  destruct (Z.ltb_spec v 26); [lia|].
  destruct (Z.ltb_spec v 52); [lia|].
  destruct (Z.ltb_spec v 62); [lia|].
  destruct (Z.eqb_spec v 62); lia.
Qed.

Lemma unbase64_base64_char v :
  0 <= v < 64 -> unbase64 (base64_char v) = Some v.
Proof.
  intros Hv. unfold unbase64.
  destruct (base64_char_cases v Hv) as [H|[H|[H|[[H1 H2]|[H1 H2]]]]];
    try rewrite H1; settle_tests; f_equal; lia.
Qed.

Lemma base64_char_low_byte v :
  0 <= v < 64 -> base64_char v mod 256 = base64_char v.
Proof.
  intros Hv. pose proof (base64_char_cases v Hv). lia.
Qed.

Lemma sextets_base64_char v r :
  0 <= v < 64 -> sextets (base64_char v :: r) = v :: sextets r.
Proof.
  intros Hv. cbn [sextets].
  rewrite base64_char_low_byte, unbase64_base64_char by assumption.
  reflexivity.
Qed.

Lemma sextets_pad r : sextets (pad :: r) = [].
Proof. reflexivity. Qed.

(** Decoding inverts encoding on byte sequences. *)
Lemma from_base64_toString_base64 (bs : buffer) :
  Forall is_byte bs -> from_base64 (toString_base64 bs) = bs.
Proof.
  unfold from_base64, is_byte.
  induction bs as [|a|a b|a b c rest IH] using list_ind_triple; intros Hb.
  - reflexivity.
  - inversion_clear Hb as [|? ? Ha _].
    cbn [toString_base64].
    rewrite !sextets_base64_char, sextets_pad by lia.
    cbn [bytes_of_sextets]. f_equal. lia.
  - inversion_clear Hb as [|? ? Ha Hb'].
    inversion_clear Hb' as [|? ? Hb _].
    cbn [toString_base64].
    rewrite !sextets_base64_char, sextets_pad by lia.
    cbn [bytes_of_sextets]. repeat f_equal; lia.
  - inversion_clear Hb as [|? ? Ha Hb'].
    inversion_clear Hb' as [|? ? Hb Hb''].
    inversion_clear Hb'' as [|? ? Hc Hrest].
    cbn [toString_base64 app].
    rewrite !sextets_base64_char by lia.
    cbn [bytes_of_sextets app].
    rewrite (IH Hrest). repeat f_equal; lia.
Qed.

End Base64Facts.


(** ** UTF-8 *)

Module Utf8Facts.
Import Buffer.

Lemma in_range_true a b c :
  a <= b <= c -> (a <=? b) && (b <=? c) = true.
Proof. intros H. apply andb_true_iff. rewrite !Z.leb_le. exact H. Qed.

Ltac split_eq_tests :=
  repeat match goal with
  | |- context [Z.eqb ?a ?b] => destruct (Z.eqb_spec a b)
  end.

(** The base-64 digits of a number: quotient and remainder by 64. *)
Lemma radix64 u :
  0 <= u ->
  exists q d, u / 64 = q /\ u mod 64 = d /\ u = q * 64 + d
              /\ 0 <= d < 64 /\ 0 <= q.
Proof. intros Hu. exists (u / 64), (u mod 64). lia. Qed.

Lemma div_4096 u : u / 4096 = u / 64 / 64.
Proof. rewrite Z.div_div by lia. reflexivity. Qed.

Lemma div_262144 u : u / 262144 = u / 64 / 64 / 64.
Proof. rewrite !Z.div_div by lia. reflexivity. Qed.

Ltac digits u q d :=
  let Hq := fresh "Hq" in
  let Hd := fresh "Hd" in
  destruct (radix64 u) as (q & d & Hq & Hd & ? & ? & ?); [lia|];
  rewrite ?Hq, ?Hd; clear Hq Hd.




(** One step of the decoder, by the shape of a well-formed sequence. *)
Lemma toString_utf8_one b0 r :
  0 <= b0 < 128 -> toString_utf8 (b0 :: r) = b0 :: toString_utf8 r.
Proof.
  intros H. cbn [toString_utf8]. settle_tests. reflexivity.
Qed.

Lemma toString_utf8_two b0 b1 r :
  194 <= b0 <= 223 -> 128 <= b1 <= 191 ->
  toString_utf8 (b0 :: b1 :: r)
  = ((b0 - 192) * 64 + (b1 - 128)) :: toString_utf8 r.
Proof.
  intros H0 H1.
  remember (b1 :: r) as r0 eqn:Hr0. cbn [toString_utf8].
  settle_tests. subst r0. cbv beta iota.
  unfold is_continuation. settle_tests. reflexivity.
Qed.

Lemma toString_utf8_three b0 b1 b2 r :
  224 <= b0 <= 239 -> second_of_three b0 b1 = true -> 128 <= b2 <= 191 ->
  toString_utf8 (b0 :: b1 :: b2 :: r)
  = ((b0 - 224) * 4096 + (b1 - 128) * 64 + (b2 - 128)) :: toString_utf8 r.
Proof.
  intros H0 H1 H2.
  remember (b1 :: b2 :: r) as r0 eqn:Hr0. cbn [toString_utf8].
  settle_tests. subst r0. cbv beta iota. rewrite H1.
  unfold is_continuation. settle_tests. reflexivity.
Qed.

Lemma toString_utf8_four b0 b1 b2 b3 r :
  240 <= b0 <= 244 -> second_of_four b0 b1 = true ->
  128 <= b2 <= 191 -> 128 <= b3 <= 191 ->
  toString_utf8 (b0 :: b1 :: b2 :: b3 :: r)
  = units_of_code_point
      ((b0 - 240) * 262144 + (b1 - 128) * 4096 + (b2 - 128) * 64 + (b3 - 128))
      ++ toString_utf8 r.
Proof.
  intros H0 H1 H2 H3.
  remember (b1 :: b2 :: b3 :: r) as r0 eqn:Hr0. cbn [toString_utf8].
  settle_tests. subst r0. cbv beta iota. rewrite H1.
  unfold is_continuation. settle_tests. reflexivity.
Qed.

Lemma toString_utf8_unit u r :
  0 <= u < 65536 -> u < 55296 \/ 57343 < u ->
  toString_utf8 (utf8_of_code_point u ++ r) = u :: toString_utf8 r.
Proof.
  intros Hu Hs. unfold utf8_of_code_point.
  destruct (Z.ltb_spec u 128); [|destruct (Z.ltb_spec u 2048)].
  - apply toString_utf8_one. lia.
  - digits u q1 d0. cbn [app].
    rewrite toString_utf8_two by lia. f_equal. lia.
  - settle_tests. rewrite div_4096. digits u q1 d0. digits q1 q2 d1.
    cbn [app]. rewrite toString_utf8_three; [f_equal; lia|lia| |lia].
    unfold second_of_three, is_continuation.
    split_eq_tests; apply in_range_true; lia.
Qed.

Lemma toString_utf8_pair h l r :
  55296 <= h <= 56319 -> 56320 <= l <= 57343 ->
  toString_utf8 (utf8_of_code_point (pair_code_point h l) ++ r)
  = h :: l :: toString_utf8 r.
Proof.
  intros Hh Hl. unfold utf8_of_code_point.
  set (c := pair_code_point h l).
  assert (Hc : 65536 <= c <= 1114111) by (unfold c, pair_code_point; lia).
  settle_tests.
  rewrite div_262144, div_4096. digits c q1 d0. digits q1 q2 d1. digits q2 q3 d2.
  cbn [app]. rewrite toString_utf8_four; [|lia| |lia|lia].
  - replace ((240 + q3 - 240) * 262144 + (128 + d2 - 128) * 4096
             + (128 + d1 - 128) * 64 + (128 + d0 - 128)) with c by lia.
    unfold units_of_code_point. settle_tests. cbn [app].
    unfold c, pair_code_point. repeat f_equal; lia.
  - unfold second_of_four, is_continuation.
    split_eq_tests; apply in_range_true; lia.
Qed.

Lemma surrogate_bounds u :
  (is_high_surrogate u = true <-> 55296 <= u <= 56319)
  /\ (is_low_surrogate u = true <-> 56320 <= u <= 57343).
Proof.
  unfold is_high_surrogate, is_low_surrogate.
  rewrite !andb_true_iff, !Z.leb_le. tauto.
Qed.

Lemma is_high_surrogate_false u :
  is_high_surrogate u = false <-> u < 55296 \/ 56319 < u.
Proof.
  unfold is_high_surrogate.
  rewrite andb_false_iff, !Z.leb_gt. tauto.
Qed.

Lemma is_low_surrogate_false u :
  is_low_surrogate u = false <-> u < 56320 \/ 57343 < u.
Proof.
  unfold is_low_surrogate.
  rewrite andb_false_iff, !Z.leb_gt. tauto.
Qed.

(** Reading a buffer written from a well-formed string gives the string
    back. *)
Lemma toString_utf8_from_utf8 (s : jsstring) :
  isWellFormed s = true -> toString_utf8 (from_utf8 s) = s.
Proof.
  induction s as [|u s IH IH2] using list_ind_pair; [reflexivity|].
  cbn [isWellFormed from_utf8].
  destruct (is_high_surrogate u) eqn:Hh.
  - destruct s as [|l s']; [discriminate|].
    intros [Hl Hwf]%andb_true_iff. rewrite Hl.
    apply surrogate_bounds in Hh, Hl.
    rewrite toString_utf8_pair by assumption.
    rewrite (IH2 l s' eq_refl Hwf). reflexivity.
  - destruct (is_low_surrogate u) eqn:Hl; [discriminate|].
    intros [[H0 H1]%andb_true_iff Hwf]%andb_true_iff.
    apply Z.leb_le in H0. apply Z.ltb_lt in H1.
    apply is_high_surrogate_false in Hh. apply is_low_surrogate_false in Hl.
    rewrite toString_utf8_unit by lia.
    rewrite (IH Hwf). reflexivity.
Qed.

Lemma utf8_of_code_point_bytes c :
  0 <= c <= 1114111 -> Forall is_utf8_byte (utf8_of_code_point c).
Proof.
  intros Hc. unfold utf8_of_code_point, is_utf8_byte.
  rewrite div_262144, div_4096.
  digits c q1 d0. digits q1 q2 d1. digits q2 q3 d2.
  destruct (Z.ltb_spec c 128); [|destruct (Z.ltb_spec c 2048);
    [|destruct (Z.ltb_spec c 65536)]];
    repeat constructor; lia.
Qed.

Lemma replacement_bytes_bytes : Forall is_utf8_byte replacement_bytes.
Proof. unfold replacement_bytes, is_utf8_byte. repeat constructor; lia. Qed.

(** Every string, well formed or not, is written as bytes. *)
Lemma from_utf8_utf8_bytes (s : jsstring) :
  is_jsstring s -> Forall is_utf8_byte (from_utf8 s).
Proof.
  unfold is_jsstring.
  induction s as [|u s IH IH2] using list_ind_pair; intros Hs;
    [constructor|].
  inversion_clear Hs as [|? ? Hu Hs'].
  cbn [from_utf8].
  destruct (is_high_surrogate u) eqn:Hh.
  - destruct s as [|l s']; [apply replacement_bytes_bytes|].
    destruct (is_low_surrogate l) eqn:Hl.
    + apply surrogate_bounds in Hh, Hl.
      inversion_clear Hs' as [|? ? _ Hs''].
      apply Forall_app; split.
      * apply utf8_of_code_point_bytes. unfold pair_code_point. lia.
      * exact (IH2 l s' eq_refl Hs'').
    + apply Forall_app; split; [apply replacement_bytes_bytes|auto].
  - destruct (is_low_surrogate u).
    + apply Forall_app; split; [apply replacement_bytes_bytes|auto].
    + apply Forall_app; split; [|auto].
      apply utf8_of_code_point_bytes. unfold is_code_unit in Hu. lia.
Qed.

Lemma from_utf8_bytes (s : jsstring) :
  is_jsstring s -> Forall is_byte (from_utf8 s).
Proof.
  intros Hs. eapply Forall_impl; [apply from_utf8_utf8_bytes, Hs|].
  unfold is_utf8_byte, is_byte. intros b Hb. lia.
Qed.

Lemma isWellFormed_is_jsstring (s : jsstring) :
  isWellFormed s = true -> is_jsstring s.
Proof.
  unfold is_jsstring, is_code_unit.
  induction s as [|u s IH IH2] using list_ind_pair; [constructor|].
  cbn [isWellFormed].
  destruct (is_high_surrogate u) eqn:Hh.
  - destruct s as [|l s']; [discriminate|].
    intros [Hl Hwf]%andb_true_iff.
    apply surrogate_bounds in Hh, Hl.
    repeat constructor; try lia. exact (IH2 l s' eq_refl Hwf).
  - destruct (is_low_surrogate u); [discriminate|].
    intros [[H0 H1]%andb_true_iff Hwf]%andb_true_iff.
    apply Z.leb_le in H0. apply Z.ltb_lt in H1.
    constructor; [lia|auto].
Qed.

End Utf8Facts.

(** ** The codec *)

Module CodecFacts.
Import Buffer Base64Facts Utf8Facts.

Lemma in_alphabet_base64_char v :
  0 <= v < 64 ->
  in_alphabet (base64_char v) = true /\ 43 <= base64_char v <= 122.
Proof.
  intros Hv. unfold in_alphabet, pad.
  destruct (base64_char_cases v Hv) as [H|[H|[H|[[H1 H2]|[H1 H2]]]]];
    try rewrite H1; settle_tests; split; (reflexivity || lia).
Qed.

Lemma toString_base64_alphabet (bs : buffer) :
  Forall is_byte bs ->
  Forall (fun u => in_alphabet u = true /\ 43 <= u <= 122)
         (toString_base64 bs).
Proof.
  unfold is_byte.
  induction bs as [|a|a b|a b c rest IH] using list_ind_triple; intros Hb.
  - constructor.
  - inversion_clear Hb as [|? ? Ha _]. cbn [toString_base64].
    repeat (constructor; [first
      [ apply in_alphabet_base64_char; lia | split; [reflexivity | unfold pad; lia] ]|]).
    constructor.
  - inversion_clear Hb as [|? ? Ha Hb'].
    inversion_clear Hb' as [|? ? Hb _]. cbn [toString_base64].
    repeat (constructor; [first
      [ apply in_alphabet_base64_char; lia | split; [reflexivity | unfold pad; lia] ]|]).
    constructor.
  - inversion_clear Hb as [|? ? Ha Hb'].
    inversion_clear Hb' as [|? ? Hb Hb''].
    inversion_clear Hb'' as [|? ? Hc Hrest]. cbn [toString_base64 app].
    repeat (constructor; [apply in_alphabet_base64_char; lia|]).
    exact (IH Hrest).
Qed.

Lemma toString_base64_length (bs : buffer) :
  exists k : nat, length (toString_base64 bs) = (4 * k)%nat.
Proof.
  induction bs as [|a|a b|a b c rest [k IH]] using list_ind_triple.
  - exists 0%nat. reflexivity.
  - exists 1%nat. reflexivity.
  - exists 1%nat. reflexivity.
  - exists (S k). cbn [toString_base64 app length]. rewrite IH. lia.
Qed.

(** The round trip through the metadata value. *)
Lemma decode_encode_well_formed (x : jsstring) :
  isWellFormed x = true -> decode (encode x) = x.
Proof.
  intros Hx. unfold decode, encode.
  rewrite from_base64_toString_base64
    by apply from_utf8_bytes, isWellFormed_is_jsstring, Hx.
  apply toString_utf8_from_utf8, Hx.
Qed.

Lemma encode_in_alphabet (x : jsstring) :
  is_jsstring x ->
  Forall (fun u => in_alphabet u = true /\ 43 <= u <= 122) (encode x).
Proof.
  intros Hx. apply toString_base64_alphabet, from_utf8_bytes, Hx.
Qed.

(** Skipped characters and the stop at the first '='. *)
Lemma sextets_stop (t t' : jsstring) :
  sextets (t ++ pad :: t') = sextets t.
Proof.
  induction t as [|u t IH]; [reflexivity|].
  cbn [app sextets].
  destruct (unbase64 (u mod 256)); [rewrite IH; reflexivity|].
  destruct (u mod 256 =? pad); [reflexivity|exact IH].
Qed.

Lemma sextets_skip (t t' : jsstring) (c : Z) :
  unbase64 (c mod 256) = None -> c mod 256 <> pad ->
  sextets (t ++ c :: t') = sextets (t ++ t').
Proof.
  intros Hc Hp.
  induction t as [|u t IH].
  - cbn [app sextets]. rewrite Hc.
    destruct (Z.eqb_spec (c mod 256) pad); [contradiction|reflexivity].
  - cbn [app sextets].
    destruct (unbase64 (u mod 256)); [rewrite IH; reflexivity|].
    destruct (u mod 256 =? pad); [reflexivity|exact IH].
Qed.

(** Tokens that [encode] never writes. *)
Lemma encode_not_short (x t : jsstring) :
  (length t mod 4 <> 0)%nat -> encode x <> t.
Proof.
  intros Hlen Heq.
  destruct (toString_base64_length (from_utf8 x)) as [k Hk].
  unfold encode in Heq. rewrite Heq in Hk. rewrite Hk in Hlen.
  apply Hlen. rewrite Nat.mul_comm. apply Nat.Div0.mod_mul.
Qed.

Lemma encode_not_outside_alphabet (x t : jsstring) :
  is_jsstring x -> existsb (fun u => negb (in_alphabet u)) t = true ->
  encode x <> t.
Proof.
  intros Hx Ht Heq.
  apply existsb_exists in Ht as (u & Hin & Hu).
  pose proof (encode_in_alphabet x Hx) as Hall.
  rewrite Heq in Hall.
  rewrite List.Forall_forall in Hall.
  destruct (Hall u Hin) as [Ha _]. rewrite Ha in Hu. discriminate.
Qed.

Lemma encode_not_byte_255 (x t : jsstring) :
  is_jsstring x -> existsb (fun b => 244 <? b) (from_base64 t) = true ->
  encode x <> t.
Proof.
  intros Hx Ht Heq.
  apply existsb_exists in Ht as (b & Hin & Hb). apply Z.ltb_lt in Hb.
  rewrite <- Heq in Hin. unfold encode in Hin.
  rewrite from_base64_toString_base64 in Hin by apply from_utf8_bytes, Hx.
  pose proof (from_utf8_utf8_bytes x Hx) as Hall.
  rewrite List.Forall_forall in Hall.
  specialize (Hall b Hin). unfold is_utf8_byte in Hall. lia.
Qed.

End CodecFacts.

(** C1.  Decoding the encoding of a Unicode string gives the string back:
    for every well-formed string [x] (no lone surrogate), reading the
    base64 token written for [x] as UTF-8 yields [x].  [encode] is a total
    function: it has a result on every input. *)
Theorem decode_encode (x : jsstring) :
  isWellFormed x = true -> decode (encode x) = x.
Proof.
  intros Hx. unfold decode, encode.
  rewrite Base64Facts.from_base64_toString_base64.
  - apply Utf8Facts.toString_utf8_from_utf8, Hx.
  - apply Utf8Facts.from_utf8_bytes, Utf8Facts.isWellFormed_is_jsstring, Hx.
Qed.

(** The name of the specification's example, and a name with a character
    outside the Basic Multilingual Plane, an accented letter and a
    combining mark. *)
Lemma decode_encode_witness :
  isWellFormed [55357; 56832; 233; 101; 769; 46; 116; 120; 116] = true
  /\ decode (encode [55357; 56832; 233; 101; 769; 46; 116; 120; 116])
     = [55357; 56832; 233; 101; 769; 46; 116; 120; 116].
Proof.
  split; [reflexivity|]. apply (decode_encode _). reflexivity.
Defined.

(** C9.  The token written for any string consists of characters of the
    base64 alphabet only (letters, digits, '+', '/' and '='), all of them
    visible ASCII characters between '+' and 'z'. *)
Theorem encode_alphabet (x : jsstring) :
  is_jsstring x ->
  Forall (fun u => Buffer.in_alphabet u = true /\ 43 <= u <= 122) (encode x).
Proof.
  intros Hx. unfold encode.
  apply CodecFacts.toString_base64_alphabet.
  apply Utf8Facts.from_utf8_bytes, Hx.
Qed.

Lemma encode_alphabet_witness :
  is_jsstring thai_txt
  /\ Forall (fun u => Buffer.in_alphabet u = true /\ 43 <= u <= 122)
            (encode thai_txt).
Proof.
  assert (H : is_jsstring thai_txt).
  { unfold is_jsstring, is_code_unit, thai_txt. repeat constructor; lia. }
  split; [exact H|]. apply (encode_alphabet thai_txt H).
Defined.

(** ** The storage key *)

Module KeyFacts.

Lemma includes_In (s : jsstring) (c : Z) :
  includes s c = true <-> In c s.
Proof.
  unfold includes. rewrite existsb_exists. split.
  - intros (u & Hin & Hu). apply Z.eqb_eq in Hu. subst u. exact Hin.
  - intros Hin. exists c. split; [exact Hin|apply Z.eqb_refl].
Qed.

(** [lastIndexOf] finds the occurrence after which there is no other. *)
Lemma lastIndexOf_spec (s : jsstring) (c : Z) :
  (~ In c s /\ lastIndexOf s c = -1)
  \/ (exists pre suf, s = pre ++ c :: suf /\ ~ In c suf
                      /\ lastIndexOf s c = Z.of_nat (length pre)).
Proof.
  induction s as [|u s [[Hno Hi]|(pre & suf & Hs & Hno & Hi)]].
  - left. split; [intros []|reflexivity].
  - cbn [lastIndexOf]. rewrite Hi. cbn [Z.leb Z.compare].
    destruct (Z.eqb_spec u c) as [->|Hne].
    + right. exists [], s. repeat split; [exact Hno].
    + left. split; [|reflexivity].
      intros [Heq|Hin]; [exact (Hne Heq)|exact (Hno Hin)].
  - right. exists (u :: pre), suf.
    cbn [lastIndexOf]. rewrite Hi.
    rewrite (proj2 (Z.leb_le 0 (Z.of_nat (length pre)))) by lia.
    rewrite Hs. repeat split; [exact Hno|cbn [length]; lia].
Qed.

Lemma substring_from_at (pre suf : jsstring) :
  substring_from (pre ++ suf) (Z.of_nat (length pre)) = suf.
Proof.
  unfold substring_from, clamp.
  rewrite (proj2 (Z.ltb_ge (Z.of_nat (length pre)) 0)) by lia.
  rewrite Nat2Z.id, length_app, Nat.min_l by lia.
  apply drop_app_length.
Qed.

(** The extension is the part of the name from its last dot. *)
Lemma extension_last_dot (filePath : jsstring) :
  (~ In dot filePath /\ extension filePath = [])
  \/ (exists pre suf, filePath = pre ++ dot :: suf /\ ~ In dot suf
                      /\ extension filePath = dot :: suf).
Proof.
  unfold extension.
  destruct (lastIndexOf_spec filePath dot)
    as [[Hno Hi]|(pre & suf & Hs & Hno & Hi)].
  - left. split; [exact Hno|].
    destruct (includes filePath dot) eqn:Hinc; [|reflexivity].
    apply includes_In in Hinc. contradiction.
  - right. exists pre, suf. repeat split; [exact Hs|exact Hno|].
    assert (Hinc : includes filePath dot = true).
    { apply includes_In. rewrite Hs. apply in_or_app. right. left.
      reflexivity. }
    rewrite Hinc, Hi, Hs. apply substring_from_at.
Qed.

Lemma test_non_ascii_false (s : jsstring) :
  test_non_ascii s = false <-> Forall (fun u => 0 <= u <= 127) s.
Proof.
  unfold test_non_ascii, is_ascii_unit.
  induction s as [|u s IH]; cbn [existsb].
  - split; [constructor|reflexivity].
  - rewrite orb_false_iff, IH, negb_false_iff, andb_true_iff, !Z.leb_le.
    split.
    + intros [Hu Hs]. constructor; assumption.
    + intros H. inversion_clear H. split; assumption.
Qed.

Lemma test_non_ascii_true (s : jsstring) :
  test_non_ascii s = true <-> Exists (fun u => ~ 0 <= u <= 127) s.
Proof.
  unfold test_non_ascii, is_ascii_unit.
  induction s as [|u s IH]; cbn [existsb].
  - split; [discriminate|intros H; inversion H].
  - rewrite orb_true_iff, IH, negb_true_iff, andb_false_iff, !Z.leb_gt.
    split.
    + intros [Hu|Hs]; [left; lia|right; exact Hs].
    + intros H. inversion_clear H as [? ? Hu|? ? Hs];
        [left; lia|right; exact Hs].
Qed.

Lemma test_non_ascii_app (s t : jsstring) :
  test_non_ascii (s ++ t) = test_non_ascii s || test_non_ascii t.
Proof. apply existsb_app. Qed.

Lemma uint_units_ascii (d : Decimal.uint) :
  test_non_ascii (uint_units d) = false.
Proof.
  unfold test_non_ascii.
  induction d as [|d IH|d IH|d IH|d IH|d IH|d IH|d IH|d IH|d IH|d IH];
    cbn [uint_units existsb]; [reflexivity|rewrite IH; reflexivity..].
Qed.

Lemma number_to_string_ascii (n : Z) :
  test_non_ascii (number_to_string n) = false.
Proof.
  unfold number_to_string.
  destruct (Z.to_int n); [apply uint_units_ascii|].
  change (test_non_ascii (45 :: uint_units d))
    with (false || test_non_ascii (uint_units d)).
  apply uint_units_ascii.
Qed.

Lemma substring_ascii (s : jsstring) (a b : Z) :
  test_non_ascii s = false -> test_non_ascii (substring s a b) = false.
Proof.
  rewrite !test_non_ascii_false. unfold substring. intros H.
  apply Forall_take, Forall_drop, H.
Qed.

(** The key is ASCII whenever the extension kept from the name is. *)
Lemma safeBlobName_ascii (amb : Ambient) (filePath : jsstring) :
  test_non_ascii (random36 amb) = false ->
  test_non_ascii (extension filePath) = false ->
  test_non_ascii (safeBlobName amb filePath) = false.
Proof.
  intros Hr He. unfold safeBlobName, hasNonAsciiChars.
  destruct (test_non_ascii filePath) eqn:Hf; [|exact Hf].
  rewrite !test_non_ascii_app, number_to_string_ascii, He.
  unfold randomId. rewrite (substring_ascii _ _ _ Hr). reflexivity.
Qed.

(** A non-ASCII extension is copied into the key. *)
Lemma safeBlobName_non_ascii (amb : Ambient) (filePath : jsstring) :
  test_non_ascii (extension filePath) = true ->
  test_non_ascii (safeBlobName amb filePath) = true.
Proof.
  intros He. unfold safeBlobName, hasNonAsciiChars.
  destruct (test_non_ascii filePath) eqn:Hf; [|].
  - rewrite !test_non_ascii_app, He, !orb_true_r. reflexivity.
  - exfalso. apply test_non_ascii_false in Hf.
    apply test_non_ascii_true in He.
    rewrite List.Exists_exists in He. destruct He as (u & Hin & Hu).
    rewrite List.Forall_forall in Hf. apply Hu, Hf.
    destruct (extension_last_dot filePath)
      as [[_ Hext]|(pre & suf & Hs & _ & Hext)]; rewrite Hext in Hin.
    + destruct Hin.
    + rewrite Hs. apply in_or_app. right. exact Hin.
Qed.

End KeyFacts.

(** C2.  A name made of ASCII characters only is its own storage key.  Any
    other name gets the key "file" + "-" + timestamp + "-" + random token +
    extension, where the extension is empty when the name has no '.', and
    otherwise runs from the last '.' of the name to its end. *)
Theorem safeBlobName_policy (amb : Ambient) (filePath : jsstring) :
  (Forall (fun u => 0 <= u <= 127) filePath
   /\ safeBlobName amb filePath = filePath)
  \/ (Exists (fun u => ~ 0 <= u <= 127) filePath
      /\ safeBlobName amb filePath
         = lit "file" ++ lit "-" ++ number_to_string (getTime amb) ++ lit "-"
             ++ randomId amb ++ extension filePath
      /\ ((~ In dot filePath /\ extension filePath = [])
          \/ (exists pre suf, filePath = pre ++ dot :: suf /\ ~ In dot suf
                              /\ extension filePath = dot :: suf))).
Proof.
  unfold safeBlobName, hasNonAsciiChars.
  destruct (test_non_ascii filePath) eqn:Hf.
  - right. split; [apply KeyFacts.test_non_ascii_true, Hf|].
    split; [reflexivity|apply KeyFacts.extension_last_dot].
  - left. split; [apply KeyFacts.test_non_ascii_false, Hf|reflexivity].
Qed.

(** The examples of the specification: an ASCII name, the Thai name, a Thai
    name without extension and a Thai name whose only dot comes first. *)
Example safeBlobName_report_pdf :
  safeBlobName sample_ambient (lit "report.pdf") = lit "report.pdf".
Proof. reflexivity. Qed.

Example safeBlobName_thai_txt :
  safeBlobName sample_ambient thai_txt
  = lit "file-1700000000000-4fzyo82mvyr.txt"
  /\ test_non_ascii (safeBlobName sample_ambient thai_txt) = false.
Proof. split; reflexivity. Qed.

Example safeBlobName_no_extension :
  safeBlobName sample_ambient [3652; 3607; 3618]
  = lit "file-1700000000000-4fzyo82mvyr".
Proof. reflexivity. Qed.

Example extension_hidden_file :
  extension (lit ".gitignore") = lit ".gitignore"
  /\ extension [46; 3652; 3607; 3618] = [46; 3652; 3607; 3618].
Proof. split; reflexivity. Qed.

(** C8.  The key of a name whose extension is not ASCII is not ASCII: for
    "ทดสอบ.ไทย" the service keeps ".ไทย" at the end of the key. *)
Theorem safeBlobName_thai_extension :
  safeBlobName sample_ambient thai_dot_thai
  = lit "file-1700000000000-4fzyo82mvyr." ++ [3652; 3607; 3618]
  /\ test_non_ascii (safeBlobName sample_ambient thai_dot_thai) = true.
Proof. split; reflexivity. Qed.

(** ** Listing *)

Module ListingFacts.

Section AnyClient.
Context {E S : Type} (c : ContainerClient E S).

(** What the loop returns when it returns: the entries it was given,
    then one entry per name, each built from the metadata read for
    that name. *)
Lemma listBlobs_loop_inr (names : list jsstring) (st : S) :
forall blobs out,
  listBlobs_loop c names st blobs = inr out ->
  exists entries,
    out = blobs ++ entries
    /\ Forall2 (fun blobName e =>
                  exists md, getProperties c blobName st = inr md
                             /\ e = list_entry c blobName md)
               names entries.
Proof.
induction names as [|blobName names IH]; intros blobs out; cbn.
- intros [= <-]. exists []. split; [symmetry; apply app_nil_r|constructor].
- unfold getBlobMetadata.
  destruct (getProperties c blobName st) as [e|md] eqn:Hmd;
    [discriminate|].
  intros (entries & -> & Hall)%IH.
  exists (list_entry c blobName md :: entries). split.
  + rewrite <- app_assoc. reflexivity.
  + constructor; [exists md; split; [exact Hmd|reflexivity]|exact Hall].
Qed.

(** The loop goes through when every metadata read succeeds. *)
Lemma listBlobs_loop_reads (st : S) (read : list (jsstring * option Metadata)) :
Forall (fun '(blobName, md) => getProperties c blobName st = inr md) read ->
forall blobs,
  listBlobs_loop c read.*1 st blobs
  = inr (blobs
         ++ ((fun '(blobName, md) => list_entry c blobName md) <$> read)).
Proof.
induction 1 as [|[blobName md] read Hmd _ IH]; intros blobs; cbn.
- rewrite app_nil_r. reflexivity.
- unfold getBlobMetadata. rewrite Hmd, IH, <- app_assoc. reflexivity.
Qed.

(** The two name fields of an entry are set together. *)
Lemma list_entry_names (blobName : jsstring) (md : option Metadata) :
let e := list_entry c blobName md in
(property md key_originalfilename = None
 \/ property md key_originalfilename = Some [])
/\ ListEntry.originalName e = None /\ ListEntry.decodedName e = None
\/ exists token,
     property md key_originalfilename = Some token /\ token <> []
     /\ ListEntry.originalName e = Some token
     /\ ListEntry.decodedName e = Some (decode token).
Proof.
unfold list_entry.
cbn [ListEntry.originalName ListEntry.decodedName].
destruct (property md key_originalfilename) as [[|u token]|];
  cbn [truthy].
- left. auto.
- right. exists (u :: token). repeat split. discriminate.
- left. auto.
Qed.

End AnyClient.

(** The listing of a container in memory: one entry per blob, in the
    order of enumeration. *)
Lemma listBlobs_memory (persist : Metadata -> option Metadata)
    (st : gmap jsstring Blob) :
  listBlobs (memory_client persist) st
  = inr ((fun '(blobName, blob) =>
            list_entry (memory_client persist) blobName (metadata blob))
           <$> map_to_list st).
Proof.
  unfold listBlobs. cbn [listBlobsFlat memory_client].
  pose (read := prod_map id metadata <$> map_to_list st).
  assert (Hnames : (map_to_list st).*1 = read.*1).
  { unfold read. rewrite <- list_fmap_compose. apply list_fmap_ext.
    intros _ [? ?] _. reflexivity. }
  rewrite Hnames, (listBlobs_loop_reads (memory_client persist) st read).
  - cbn [app]. unfold read. rewrite <- list_fmap_compose. f_equal.
    apply list_fmap_ext. intros _ [? ?] _. reflexivity.
  - unfold read. apply Forall_fmap, Forall_forall.
    intros [blobName blob] Hin%elem_of_map_to_list. cbn.
    rewrite Hin. reflexivity.
Qed.

Section Errors.
Context {E S : Type} (c : ContainerClient E S).

(** An error of the loop is an error of a metadata read. *)
Lemma listBlobs_loop_inl (names : list jsstring) (st : S) :
forall blobs e,
  listBlobs_loop c names st blobs = inl e ->
  exists blobName, getProperties c blobName st = inl e.
Proof.
induction names as [|blobName names IH]; intros blobs e; cbn;
  [discriminate|].
unfold getBlobMetadata.
destruct (getProperties c blobName st) as [e'|md] eqn:Hmd.
- intros [= <-]. exists blobName. exact Hmd.
- apply IH.
Qed.

End Errors.

End ListingFacts.

(** C10.  In every entry of a listing the two name fields are both null or
    both set; when set, [originalName] is the metadata value itself (the
    base64 token), [decodedName] is what the token decodes to, and the
    expression [originalName || decodedName || name] of the file list shows
    the token. *)
Theorem listBlobs_entry_invariant {E S : Type} (c : ContainerClient E S)
    (st : S) (entries : list ListEntry.t) :
  listBlobs c st = inr entries ->
  Forall (fun e =>
            (ListEntry.originalName e = None /\ ListEntry.decodedName e = None)
            \/ (exists md token,
                  getProperties c (ListEntry.name e) st = inr md
                  /\ property md key_originalfilename = Some token
                  /\ ListEntry.originalName e = Some token
                  /\ ListEntry.decodedName e = Some (decode token)
                  /\ displayed_name e = Some token))
         entries.
Proof.
  unfold listBlobs.
  destruct (listBlobsFlat c st) as [e|names]; [discriminate|].
  intros (es & -> & Hall)%ListingFacts.listBlobs_loop_inr. cbn [app].
  induction Hall as [|blobName e names es (md & Hmd & ->) _ IH];
    constructor; [|exact IH].
  destruct (ListingFacts.list_entry_names c blobName md)
    as [(_ & Ho & Hd)|(token & Htok & Hne & Ho & Hd)].
  - left. split; assumption.
  - right. exists md, token. repeat split; try assumption.
    unfold displayed_name. rewrite Ho, Hd.
    destruct token; [congruence|reflexivity].
Qed.

(** The listing after the Thai name was uploaded to an account that
    returns metadata names in lower case: the file list shows the token. *)
Lemma listBlobs_entry_invariant_witness :
  displayed_name <$> [list_entry (memory_client lower_case_names)
                        (safeBlobName sample_ambient thai_txt)
                        (Some {[ key_originalfilename := encode thai_txt ]})]
  = [Some (encode thai_txt)]
  /\ Forall (fun e =>
            (ListEntry.originalName e = None /\ ListEntry.decodedName e = None)
            \/ (exists md token,
                  getProperties (memory_client lower_case_names)
                    (ListEntry.name e) (after_upload lower_case_names thai_txt)
                  = inr md
                  /\ property md key_originalfilename = Some token
                  /\ ListEntry.originalName e = Some token
                  /\ ListEntry.decodedName e = Some (decode token)
                  /\ displayed_name e = Some token))
         [list_entry (memory_client lower_case_names)
            (safeBlobName sample_ambient thai_txt)
            (Some {[ key_originalfilename := encode thai_txt ]})].
Proof.
  split; [vm_compute; reflexivity|].
  apply (listBlobs_entry_invariant (memory_client lower_case_names)
           (after_upload lower_case_names thai_txt)).
  vm_compute. reflexivity.
Defined.

(** C4 as stated fails on a stored value that is not a token of [encode]:
    the entry of "bad.bin", whose token "/w==" stands for the byte 255, gets
    the name U+FFFD, and the entry of "junk", whose token "!!!!" has no
    base64 character, gets the empty string; neither is null. *)
Lemma listBlobs_undecodable_not_null :
  (forall x, is_jsstring x -> encode x <> lit "/w==")
  /\ (forall x, is_jsstring x -> encode x <> lit "!!!!")
  /\ exists entries bad junk,
       listBlobs (memory_client verbatim) corrupted_container = inr entries
       /\ In bad entries /\ In junk entries
       /\ ListEntry.name bad = lit "bad.bin"
       /\ ListEntry.decodedName bad = Some [65533]
       /\ ListEntry.name junk = lit "junk"
       /\ ListEntry.decodedName junk = Some [].
Proof.
  split; [|split].
  - intros x Hx. apply CodecFacts.encode_not_byte_255; [exact Hx|reflexivity].
  - intros x Hx.
    apply CodecFacts.encode_not_outside_alphabet; [exact Hx|reflexivity].
  - eexists _,
      (list_entry (memory_client verbatim) (lit "bad.bin")
         (Some {[ key_originalfilename := lit "/w==" ]})),
      (list_entry (memory_client verbatim) (lit "junk")
         (Some {[ key_originalfilename := lit "!!!!" ]})).
    split; [vm_compute; reflexivity|].
    repeat split; vm_compute; auto 10.
Qed.

(** C4, amended.  The listing of a container returns one entry per stored
    object, in the order of enumeration, and no stored value makes it fail.
    An object without metadata, without the name [originalfilename], or
    with an empty value has both names null.  Any other value is decoded
    without failure, whatever it is, so the names are not null; when the
    value is the token of a well-formed name, the decoded name is that
    name. *)
Theorem listBlobs_best_effort (persist : Metadata -> option Metadata)
    (st : gmap jsstring Blob) :
  exists entries,
    listBlobs (memory_client persist) st = inr entries
    /\ ListEntry.name <$> entries = (map_to_list st).*1
    /\ forall blobName blob,
         st !! blobName = Some blob ->
         exists e,
           In e entries /\ ListEntry.name e = blobName
           /\ match property (metadata blob) key_originalfilename with
              | None | Some [] =>
                  ListEntry.originalName e = None
                  /\ ListEntry.decodedName e = None
              | Some token =>
                  ListEntry.originalName e = Some token
                  /\ ListEntry.decodedName e = Some (decode token)
                  /\ forall x, isWellFormed x = true -> token = encode x ->
                               ListEntry.decodedName e = Some x
              end.
Proof.
  eexists. split; [apply ListingFacts.listBlobs_memory|]. split.
  - rewrite <- list_fmap_compose. apply list_fmap_ext.
    intros _ [? ?] _. reflexivity.
  - intros blobName blob Hblob.
    exists (list_entry (memory_client persist) blobName (metadata blob)).
    split; [|split; [reflexivity|]].
    + apply list_elem_of_In.
      apply (list_elem_of_fmap_2
               (fun '(blobName, blob) =>
                  list_entry (memory_client persist) blobName (metadata blob))
               _ (blobName, blob)).
      apply elem_of_map_to_list, Hblob.
    + unfold list_entry.
      cbn [ListEntry.originalName ListEntry.decodedName].
      destruct (property (metadata blob) key_originalfilename)
        as [[|u token]|]; cbn [truthy]; [auto| |auto].
      repeat split. intros x Hx ->. cbn [fmap option_fmap option_map].
      rewrite CodecFacts.decode_encode_well_formed by exact Hx. reflexivity.
Qed.

(** ** Upload *)

Module UploadFacts.

Section AnyClient.
Context {E S : Type} (c : ContainerClient E S).

(** A successful upload: the name passed the URI encoding, both client
    calls succeeded, and the result is built from the values in
    memory. *)
Lemma uploadFileToBlob_inr (amb : Ambient) (filePath : jsstring)
  (fileBuffer : buffer) (contentType : jsstring) (st st' : S)
  (result : UploadResult.t) :
uploadFileToBlob c amb filePath fileBuffer contentType st
= inr (result, st') ->
exists originalNameUtf8 readBack,
  URI.encodeURIComponent filePath = Some originalNameUtf8
  /\ upload c (safeBlobName amb filePath) fileBuffer contentType
       (upload_metadata amb (encode filePath) originalNameUtf8) st
     = inr st'
  /\ getProperties c (safeBlobName amb filePath) st' = inr readBack
  /\ result
     = {| UploadResult.url := blob_url c (safeBlobName amb filePath);
          UploadResult.originalName := filePath;
          UploadResult.decodedName := decode (encode filePath);
          UploadResult.blobName := safeBlobName amb filePath |}.
Proof.
unfold uploadFileToBlob.
destruct (URI.encodeURIComponent filePath) as [utf8|]; [|discriminate].
destruct (upload c _ _ _ _ st) as [e|st1] eqn:Hup; [discriminate|].
destruct (getProperties c _ st1) as [e|readBack] eqn:Hget;
  [discriminate|].
intros [= <- <-]. exists utf8, readBack. auto.
Qed.

(** A failed upload with a client error: one of the two client calls
    raised it. *)
Lemma uploadFileToBlob_inl (amb : Ambient) (filePath : jsstring)
  (fileBuffer : buffer) (contentType : jsstring) (st : S) (e : E) :
uploadFileToBlob c amb filePath fileBuffer contentType st
= inl (ClientError e) ->
exists md,
  upload c (safeBlobName amb filePath) fileBuffer contentType md st
  = inl e
  \/ exists st',
       upload c (safeBlobName amb filePath) fileBuffer contentType md st
       = inr st'
       /\ getProperties c (safeBlobName amb filePath) st' = inl e.
Proof.
unfold uploadFileToBlob.
destruct (URI.encodeURIComponent filePath) as [utf8|]; [|discriminate].
destruct (upload c _ _ _ _ st) as [e'|st1] eqn:Hup.
- intros [= <-].
  exists (upload_metadata amb (encode filePath) utf8). left. exact Hup.
- destruct (getProperties c _ st1) as [e'|readBack] eqn:Hget;
    [|discriminate].
  intros [= <-].
  exists (upload_metadata amb (encode filePath) utf8). right.
  exists st1. auto.
Qed.

End AnyClient.

Lemma is_unreserved_ascii (u : Z) :
  URI.is_unreserved u = true -> 0 <= u <= 127.
Proof.
  unfold URI.is_unreserved, URI.in_range.
  rewrite !orb_true_iff, !andb_true_iff, !Z.leb_le, !Z.eqb_eq. lia.
Qed.

(** The URI encoding of a well-formed name does not throw. *)
Lemma encodeURIComponent_well_formed (x : jsstring) :
  isWellFormed x = true -> exists u, URI.encodeURIComponent x = Some u.
Proof.
  induction x as [|u x IH IH2] using list_ind_pair;
    [intros _; exists []; reflexivity|].
  cbn [isWellFormed URI.encodeURIComponent].
  destruct (URI.is_unreserved u) eqn:Hun.
  - apply is_unreserved_ascii in Hun.
    rewrite (proj2 (Utf8Facts.is_high_surrogate_false u)) by lia.
    rewrite (proj2 (Utf8Facts.is_low_surrogate_false u)) by lia.
    intros [_ Hwf]%andb_true_iff.
    destruct (IH Hwf) as [v ->]. eexists. reflexivity.
  - destruct (is_high_surrogate u).
    + destruct x as [|l x']; [discriminate|].
      intros [Hl Hwf]%andb_true_iff. rewrite Hl.
      destruct (IH2 l x' eq_refl Hwf) as [v ->]. eexists. reflexivity.
    + destruct (is_low_surrogate u); [discriminate|].
      intros [_ Hwf]%andb_true_iff.
      destruct (IH Hwf) as [v ->]. eexists. reflexivity.
Qed.

(** On a container in memory the upload of a well-formed name succeeds and
    answers with that name as the recovered name. *)
Lemma uploadFileToBlob_memory (persist : Metadata -> option Metadata)
    (amb : Ambient) (filePath : jsstring) (fileBuffer : buffer)
    (contentType : jsstring) (st : gmap jsstring Blob) :
  isWellFormed filePath = true ->
  exists result st',
    uploadFileToBlob (memory_client persist) amb filePath fileBuffer
      contentType st = inr (result, st')
    /\ UploadResult.decodedName result = filePath
    /\ UploadResult.blobName result = safeBlobName amb filePath.
Proof.
  intros Hwf. unfold uploadFileToBlob.
  destruct (encodeURIComponent_well_formed filePath Hwf) as [utf8 ->].
  cbn [upload getProperties memory_client].
  rewrite lookup_insert_eq.
  eexists _, _. split; [reflexivity|]. split; [|reflexivity].
  cbn [UploadResult.decodedName].
  apply CodecFacts.decode_encode_well_formed, Hwf.
Qed.

(** A name with a lone surrogate is rejected before anything is
    written. *)
Lemma uploadFileToBlob_lone_surrogate :
  uploadFileToBlob (memory_client verbatim) sample_ambient [55296; 46; 97]
    [] (lit "text/plain") ∅ = inl URIError
  /\ decode (encode [55296; 46; 97]) = [65533; 46; 97].
Proof. split; vm_compute; reflexivity. Qed.

(** The name the listing reads is not among the names the upload
    writes. *)
Lemma upload_metadata_lower_case (amb : Ambient)
    (originalFilenameEncoded originalNameUtf8 : jsstring) :
  upload_metadata amb originalFilenameEncoded originalNameUtf8
    !! key_originalfilename = None.
Proof.
  unfold upload_metadata.
  rewrite !lookup_insert_ne by (vm_compute; discriminate).
  apply lookup_empty.
Qed.

Lemma upload_metadata_camel_case (amb : Ambient)
    (originalFilenameEncoded originalNameUtf8 : jsstring) :
  upload_metadata amb originalFilenameEncoded originalNameUtf8
    !! key_originalFilename = Some originalFilenameEncoded.
Proof. apply lookup_insert_eq. Qed.

End UploadFacts.

(** C5 as stated fails: the upload of "report.pdf" answers with the
    recovered name "report.pdf" on an account that keeps no metadata, where
    the metadata read back is absent, and on an account that returns
    metadata names in lower case, where [getOriginalFileName] recovers
    nothing from the stored blob. *)
Lemma upload_result_ignores_read_back :
  match uploadFileToBlob (memory_client dropped) sample_ambient
          (lit "report.pdf") [37; 80; 68; 70] (lit "application/pdf") ∅ with
  | inr (result, st) =>
      UploadResult.decodedName result = lit "report.pdf"
      /\ getProperties (memory_client dropped)
           (UploadResult.blobName result) st = inr None
  | inl _ => False
  end
  /\ match uploadFileToBlob (memory_client lower_case_names) sample_ambient
             (lit "report.pdf") [37; 80; 68; 70] (lit "application/pdf") ∅ with
     | inr (result, st) =>
         UploadResult.decodedName result = lit "report.pdf"
         /\ getOriginalFileName (memory_client lower_case_names)
              (UploadResult.blobName result) st = None
     | inl _ => False
     end.
Proof. vm_compute. repeat split. Qed.

(** C5, amended.  For every successful upload, whatever the client and
    whatever metadata it reads back, the recovered name of the result is
    the decoding of the token computed in memory from the declared name;
    the read-back only has to succeed. *)
Theorem upload_decodedName_from_memory {E S : Type}
    (c : ContainerClient E S) (amb : Ambient) (filePath : jsstring)
    (fileBuffer : buffer) (contentType : jsstring) (st st' : S)
    (result : UploadResult.t) :
  uploadFileToBlob c amb filePath fileBuffer contentType st
  = inr (result, st') ->
  UploadResult.decodedName result = decode (encode filePath)
  /\ UploadResult.originalName result = filePath
  /\ exists readBack,
       getProperties c (UploadResult.blobName result) st' = inr readBack.
Proof.
  intros (utf8 & readBack & _ & _ & Hget & ->)%UploadFacts.uploadFileToBlob_inr.
  cbn. repeat split. exists readBack. exact Hget.
Qed.

Lemma upload_decodedName_from_memory_witness :
  uploadFileToBlob (memory_client dropped) sample_ambient thai_txt
    [37; 80; 68; 70] (lit "application/pdf") ∅
  = inr ({| UploadResult.url :=
              blob_url (memory_client dropped)
                (safeBlobName sample_ambient thai_txt);
            UploadResult.originalName := thai_txt;
            UploadResult.decodedName := thai_txt;
            UploadResult.blobName := safeBlobName sample_ambient thai_txt |},
         after_upload dropped thai_txt)
  /\ thai_txt = decode (encode thai_txt)
  /\ thai_txt = thai_txt
  /\ exists readBack,
       getProperties (memory_client dropped)
         (safeBlobName sample_ambient thai_txt) (after_upload dropped thai_txt)
       = inr readBack.
Proof.
  assert (H : uploadFileToBlob (memory_client dropped) sample_ambient thai_txt
                [37; 80; 68; 70] (lit "application/pdf") ∅
              = inr ({| UploadResult.url :=
                          blob_url (memory_client dropped)
                            (safeBlobName sample_ambient thai_txt);
                        UploadResult.originalName := thai_txt;
                        UploadResult.decodedName := thai_txt;
                        UploadResult.blobName :=
                          safeBlobName sample_ambient thai_txt |},
                     after_upload dropped thai_txt))
    by (vm_cast_no_check
          (eq_refl (uploadFileToBlob (memory_client dropped) sample_ambient
                      thai_txt [37; 80; 68; 70] (lit "application/pdf") ∅))).
  split; [exact H|].
  exact (upload_decodedName_from_memory _ _ _ _ _ _ _ _ H).
Defined.


(** ** Decoding of arbitrary tokens *)

(** C6 as stated fails.  None of the tokens "QQ" (no padding), "!!!!" (no
    character of the alphabet) and "/w==" (the byte 255, which is not
    UTF-8) is written by [encode] for any string, and each is decoded to a
    string; [getOriginalFileName] returns U+FFFD, not null, for a blob
    whose metadata holds "/w==". *)
Lemma decode_accepts_any_token :
  ((forall x, encode x <> lit "QQ") /\ decode (lit "QQ") = lit "A")
  /\ ((forall x, is_jsstring x -> encode x <> lit "!!!!")
      /\ decode (lit "!!!!") = [])
  /\ ((forall x, is_jsstring x -> encode x <> lit "/w==")
      /\ decode (lit "/w==") = [65533])
  /\ getOriginalFileName (memory_client verbatim) (lit "bad.bin")
       mangled_container = Some [65533].
Proof.
  split; [split|split; [split|split; [split|]]].
  - intros x. apply CodecFacts.encode_not_short. vm_compute. discriminate.
  - vm_compute. reflexivity.
  - intros x Hx.
    apply CodecFacts.encode_not_outside_alphabet; [exact Hx|reflexivity].
  - vm_compute. reflexivity.
  - intros x Hx. apply CodecFacts.encode_not_byte_255; [exact Hx|reflexivity].
  - vm_compute. reflexivity.
  - vm_compute. reflexivity.
Qed.

(** C6, amended.  [decode] has a result on every token and raises no
    decode error.  On the token of a well-formed string it returns the
    string.  In any token, a character that is neither in the alphabet nor
    '=' is skipped, everything from the first '=' on is ignored, and a byte
    that cannot start a UTF-8 sequence is read as U+FFFD. *)
Theorem decode_lenient (x t t' : jsstring) (c b : Z) (bs : buffer) :
  isWellFormed x = true ->
  Buffer.unbase64 (c mod 256) = None -> c mod 256 <> Buffer.pad ->
  128 <= b <= 193 \/ 245 <= b ->
  decode (encode x) = x
  /\ decode (t ++ c :: t') = decode (t ++ t')
  /\ decode (t ++ Buffer.pad :: t') = decode t
  /\ Buffer.toString_utf8 (b :: bs)
     = Buffer.replacement :: Buffer.toString_utf8 bs.
Proof.
  intros Hx Hc Hp Hb. split; [|split; [|split]].
  - apply CodecFacts.decode_encode_well_formed, Hx.
  - unfold decode, Buffer.from_base64.
    rewrite (CodecFacts.sextets_skip t t' c Hc Hp). reflexivity.
  - unfold decode, Buffer.from_base64.
    rewrite CodecFacts.sextets_stop. reflexivity.
  - cbn [Buffer.toString_utf8].
    destruct Hb as [Hb|Hb]; settle_tests; reflexivity.
Qed.

Lemma decode_lenient_witness :
  decode (encode thai_txt) = thai_txt
  /\ decode (lit "QU" ++ 32 :: lit "JD") = decode (lit "QU" ++ lit "JD")
  /\ decode (lit "QU" ++ Buffer.pad :: lit "JD") = decode (lit "QU")
  /\ Buffer.toString_utf8 (255 :: [65])
     = Buffer.replacement :: Buffer.toString_utf8 [65].
Proof.
  apply (decode_lenient thai_txt (lit "QU") (lit "JD") 32 255 [65]).
  - reflexivity.
  - reflexivity.
  - vm_compute. discriminate.
  - right. lia.
Defined.

(** ** Configuration *)




(** * Further properties of the service *)

(** ** Tokens *)

(** Two different well-formed names never get the same token. *)
Theorem encode_injective (x y : jsstring) :
  isWellFormed x = true -> isWellFormed y = true -> x <> y ->
  encode x <> encode y.
Proof.
  intros Hx Hy Hne Heq. apply Hne.
  rewrite <- (CodecFacts.decode_encode_well_formed x Hx).
  rewrite <- (CodecFacts.decode_encode_well_formed y Hy).
  rewrite Heq. reflexivity.
Qed.

Lemma encode_injective_witness :
  isWellFormed thai_txt = true /\ isWellFormed thai_dot_thai = true
  /\ thai_txt <> thai_dot_thai
  /\ encode thai_txt <> encode thai_dot_thai.
Proof.
  assert (Hne : thai_txt <> thai_dot_thai) by (vm_compute; discriminate).
  repeat split; try reflexivity; try exact Hne.
  apply (encode_injective thai_txt thai_dot_thai); [reflexivity..|exact Hne].
Defined.

Lemma toString_base64_exact_length (bs : buffer) :
  length (Buffer.toString_base64 bs) = (4 * ((length bs + 2) / 3))%nat.
Proof.
  induction bs as [|a|a b|a b c rest IH] using list_ind_triple;
    [reflexivity..|].
  cbn [Buffer.toString_base64 app length]. rewrite IH.
  replace (S (S (S (length rest))) + 2)%nat
    with ((length rest + 2) + 1 * 3)%nat by lia.
  rewrite Nat.div_add by lia. lia.
Qed.

Lemma utf8_of_code_point_length (c : Z) :
  c < 65536 -> (length (Buffer.utf8_of_code_point c) <= 3)%nat.
Proof.
  intros Hc. unfold Buffer.utf8_of_code_point.
  destruct (c <? 128); [cbn; lia|]. destruct (c <? 2048); [cbn; lia|].
  rewrite (proj2 (Z.ltb_lt c 65536)) by lia. cbn. lia.
Qed.

Lemma utf8_of_code_point_length_4 (c : Z) :
  (length (Buffer.utf8_of_code_point c) <= 4)%nat.
Proof.
  unfold Buffer.utf8_of_code_point.
  repeat match goal with
  | |- context [if ?b then _ else _] => destruct b
  end; cbn; lia.
Qed.

(** A string is written in at most three bytes per code unit. *)
Lemma from_utf8_length (s : jsstring) :
  is_jsstring s -> (length (Buffer.from_utf8 s) <= 3 * length s)%nat.
Proof.
  unfold is_jsstring, is_code_unit.
  induction s as [|u s IH IH2] using list_ind_pair; intros Hs; [cbn; lia|].
  inversion_clear Hs as [|? ? Hu Hs'].
  cbn [Buffer.from_utf8].
  destruct (is_high_surrogate u).
  - destruct s as [|l s']; [cbn; lia|].
    inversion_clear Hs' as [|? ? Hl Hs''].
    destruct (is_low_surrogate l).
    + rewrite length_app. cbn [length].
      pose proof (utf8_of_code_point_length_4 (pair_code_point u l)).
      pose proof (IH2 l s' eq_refl Hs''). lia.
    + rewrite length_app.
      assert (Hs3 : Forall (fun u => 0 <= u < 65536) (l :: s'))
        by (constructor; assumption).
      pose proof (IH Hs3). cbn [length Buffer.replacement_bytes] in *. lia.
  - destruct (is_low_surrogate u); rewrite length_app; pose proof (IH Hs').
    + cbn [length Buffer.replacement_bytes] in *. lia.
    + pose proof (utf8_of_code_point_length u ltac:(lia)).
      cbn [length] in *. lia.
Qed.

(** The token has four characters for every three bytes of the name in
    UTF-8, rounded up, and so at most four characters per code unit of the
    name. *)
Theorem encode_length (x : jsstring) :
  is_jsstring x ->
  length (encode x) = (4 * ((length (Buffer.from_utf8 x) + 2) / 3))%nat
  /\ (length (encode x) <= 4 * length x)%nat.
Proof.
  intros Hx. unfold encode. rewrite toString_base64_exact_length.
  split; [reflexivity|].
  pose proof (from_utf8_length x Hx) as Hlen.
  apply Nat.mul_le_mono_l.
  pose proof (Nat.div_mod_eq (length (Buffer.from_utf8 x) + 2) 3) as Hdiv.
  pose proof (Nat.mod_upper_bound (length (Buffer.from_utf8 x) + 2) 3) as Hmod.
  set (q := ((length (Buffer.from_utf8 x) + 2) / 3)%nat) in *.
  set (r := ((length (Buffer.from_utf8 x) + 2) mod 3)%nat) in *.
  clearbody q r. lia.
Qed.

Lemma encode_length_witness :
  is_jsstring thai_txt
  /\ length (encode thai_txt)
     = (4 * ((length (Buffer.from_utf8 thai_txt) + 2) / 3))%nat
  /\ (length (encode thai_txt) <= 4 * length thai_txt)%nat.
Proof.
  assert (H : is_jsstring thai_txt).
  { unfold is_jsstring, is_code_unit, thai_txt. repeat constructor; lia. }
  split; [exact H|]. exact (encode_length thai_txt H).
Defined.

(** ** The URI-encoded name and the metadata *)

(** The URI encoding accepts well-formed names only. *)
Lemma encodeURIComponent_Some_well_formed (x : jsstring) :
  is_jsstring x ->
  forall v, URI.encodeURIComponent x = Some v -> isWellFormed x = true.
Proof.
  unfold is_jsstring, is_code_unit.
  induction x as [|u x IH IH2] using list_ind_pair; intros Hx v;
    [reflexivity|].
  inversion_clear Hx as [|? ? Hu Hx'].
  cbn [isWellFormed URI.encodeURIComponent].
  destruct (URI.is_unreserved u) eqn:Hun.
  - apply UploadFacts.is_unreserved_ascii in Hun.
    rewrite (proj2 (Utf8Facts.is_high_surrogate_false u)) by lia.
    rewrite (proj2 (Utf8Facts.is_low_surrogate_false u)) by lia.
    destruct (URI.encodeURIComponent x) as [w|] eqn:Hw; [|discriminate].
    intros _. rewrite (IH Hx' w eq_refl).
    rewrite (proj2 (Z.leb_le 0 u)), (proj2 (Z.ltb_lt u 65536)) by lia.
    reflexivity.
  - destruct (is_high_surrogate u).
    + destruct x as [|l x']; [discriminate|].
      inversion_clear Hx' as [|? ? Hl Hx''].
      destruct (is_low_surrogate l); [|discriminate].
      destruct (URI.encodeURIComponent x') as [w|] eqn:Hw; [|discriminate].
      intros _. rewrite (IH2 l x' eq_refl Hx'' w Hw). reflexivity.
    + destruct (is_low_surrogate u); [discriminate|].
      destruct (URI.encodeURIComponent x) as [w|] eqn:Hw; [|discriminate].
      intros _. rewrite (IH Hx' w eq_refl).
      rewrite (proj2 (Z.leb_le 0 u)), (proj2 (Z.ltb_lt u 65536)) by lia.
      reflexivity.
Qed.



Lemma hex_digit_ascii (d : Z) :
  0 <= d < 16 -> 0 <= URI.hex_digit d <= 127.
Proof. intros Hd. unfold URI.hex_digit. destruct (d <? 10); lia. Qed.

Lemma percent_ascii (bs : buffer) :
  Forall Buffer.is_utf8_byte bs ->
  test_non_ascii (flat_map URI.percent bs) = false.
Proof.
  unfold Buffer.is_utf8_byte.
  induction 1 as [|b bs Hb _ IH]; [reflexivity|].
  cbn [flat_map]. rewrite KeyFacts.test_non_ascii_app, IH.
  apply orb_false_iff. split; [|reflexivity].
  apply KeyFacts.test_non_ascii_false. unfold URI.percent.
  pose proof (hex_digit_ascii (b / 16) ltac:(lia)).
  pose proof (hex_digit_ascii (b mod 16) ltac:(lia)).
  repeat constructor; lia.
Qed.

(** What [encodeURIComponent] returns is ASCII. *)
Lemma encodeURIComponent_ascii (x : jsstring) :
  is_jsstring x ->
  forall v, URI.encodeURIComponent x = Some v -> test_non_ascii v = false.
Proof.
  unfold is_jsstring, is_code_unit.
  induction x as [|u x IH IH2] using list_ind_pair; intros Hx v;
    [intros [= <-]; reflexivity|].
  inversion_clear Hx as [|? ? Hu Hx'].
  cbn [URI.encodeURIComponent].
  destruct (URI.is_unreserved u) eqn:Hun.
  - apply UploadFacts.is_unreserved_ascii in Hun.
    destruct (URI.encodeURIComponent x) as [w|] eqn:Hw; [|discriminate].
    intros [= <-].
    change (u :: w) with ([u] ++ w).
    rewrite KeyFacts.test_non_ascii_app, (IH Hx' w eq_refl), orb_false_r.
    apply KeyFacts.test_non_ascii_false. repeat constructor; lia.
  - destruct (is_high_surrogate u) eqn:Hh.
    + destruct x as [|l x']; [discriminate|].
      inversion_clear Hx' as [|? ? Hl Hx''].
      destruct (is_low_surrogate l) eqn:Hlow; [|discriminate].
      destruct (URI.encodeURIComponent x') as [w|] eqn:Hw; [|discriminate].
      intros [= <-].
      rewrite KeyFacts.test_non_ascii_app, (IH2 l x' eq_refl Hx'' w Hw).
      rewrite orb_false_r. apply percent_ascii.
      apply Utf8Facts.utf8_of_code_point_bytes.
      apply Utf8Facts.surrogate_bounds in Hh, Hlow.
      unfold pair_code_point. lia.
    + destruct (is_low_surrogate u); [discriminate|].
      destruct (URI.encodeURIComponent x) as [w|] eqn:Hw; [|discriminate].
      intros [= <-].
      rewrite KeyFacts.test_non_ascii_app, (IH Hx' w eq_refl), orb_false_r.
      apply percent_ascii, Utf8Facts.utf8_of_code_point_bytes. lia.
Qed.

(** Every name and every value of the metadata an upload writes is ASCII,
    as long as the date is rendered in ASCII. *)
Theorem upload_metadata_ascii (amb : Ambient) (filePath : jsstring) :
  is_jsstring filePath ->
  test_non_ascii (toISOString amb) = false ->
  match URI.encodeURIComponent filePath with
  | Some originalNameUtf8 =>
      map_Forall (fun k v => test_non_ascii k = false
                             /\ test_non_ascii v = false)
        (upload_metadata amb (encode filePath) originalNameUtf8)
  | None => True
  end.
Proof.
  intros Hjs Hdate.
  destruct (URI.encodeURIComponent filePath) as [utf8|] eqn:Huri; [|exact I].
  unfold upload_metadata.
  repeat apply map_Forall_insert_2; try apply map_Forall_empty.
  - split; [reflexivity|].
    apply KeyFacts.test_non_ascii_false.
    eapply Forall_impl; [apply CodecFacts.encode_in_alphabet, Hjs|].
    cbn. intros u [_ Hu]. lia.
  - split; [reflexivity|].
    apply (encodeURIComponent_ascii filePath Hjs utf8 Huri).
  - split; [reflexivity|exact Hdate].
Qed.

Lemma upload_metadata_ascii_witness :
  is_jsstring thai_txt
  /\ test_non_ascii (toISOString sample_ambient) = false
  /\ match URI.encodeURIComponent thai_txt with
     | Some originalNameUtf8 =>
         map_Forall (fun k v => test_non_ascii k = false
                                /\ test_non_ascii v = false)
           (upload_metadata sample_ambient (encode thai_txt) originalNameUtf8)
     | None => True
     end.
Proof.
  assert (H : is_jsstring thai_txt).
  { unfold is_jsstring, is_code_unit, thai_txt. repeat constructor; lia. }
  split; [exact H|]. split; [reflexivity|].
  exact (upload_metadata_ascii sample_ambient thai_txt H eq_refl).
Defined.

(** ** More on the storage key *)

(** A string has one last dot. *)
Lemma last_dot_unique (pre pre' suf suf' : jsstring) :
  pre ++ dot :: suf = pre' ++ dot :: suf' ->
  ~ In dot suf -> ~ In dot suf' -> suf = suf'.
Proof.
  revert pre'. induction pre as [|a pre IH]; intros [|a' pre'] Heq Hs Hs'.
  - injection Heq as ->. reflexivity.
  - injection Heq as <- ->. exfalso. apply Hs.
    apply in_or_app. right. left. reflexivity.
  - injection Heq as -> <-. exfalso. apply Hs'.
    apply in_or_app. right. left. reflexivity.
  - injection Heq as _ Heq. exact (IH pre' Heq Hs Hs').
Qed.

(** What stands before the last dot does not change the extension. *)
Lemma extension_after_prefix (pre s : jsstring) :
  ~ In dot pre -> extension (pre ++ s) = extension s.
Proof.
  intros Hpre.
  destruct (KeyFacts.extension_last_dot s)
    as [[Hno ->]|(p & suf & Hs & Hsuf & ->)];
    destruct (KeyFacts.extension_last_dot (pre ++ s))
      as [[Hno' ->]|(p' & suf' & Hs' & Hsuf' & ->)]; try reflexivity.
  - exfalso.
    assert (Hin : In dot (pre ++ s))
      by (rewrite Hs'; apply in_or_app; right; left; reflexivity).
    apply in_app_or in Hin as [Hin|Hin]; auto.
  - exfalso. apply Hno'. apply in_or_app. right. rewrite Hs.
    apply in_or_app. right. left. reflexivity.
  - f_equal. rewrite Hs, app_assoc in Hs'.
    symmetry. exact (last_dot_unique _ _ _ _ Hs' Hsuf Hsuf').
Qed.

Lemma extension_idempotent (s : jsstring) :
  extension (extension s) = extension s.
Proof.
  destruct (KeyFacts.extension_last_dot s)
    as [[Hno ->]|(p & suf & Hs & Hsuf & ->)]; [reflexivity|].
  destruct (KeyFacts.extension_last_dot (dot :: suf))
    as [[Hno' ->]|(p' & suf' & Hs' & Hsuf' & ->)].
  - exfalso. apply Hno'. left. reflexivity.
  - f_equal. symmetry.
    exact (last_dot_unique [] p' suf suf' Hs' Hsuf Hsuf').
Qed.

Lemma uint_units_digits (d : Decimal.uint) :
  Forall (fun u => 48 <= u <= 57) (uint_units d).
Proof.
  induction d; cbn [uint_units]; constructor;
    (assumption || (unfold digit_unit; lia)).
Qed.

Lemma number_to_string_digits (n : Z) :
  0 <= n -> Forall (fun u => 48 <= u <= 57) (number_to_string n).
Proof.
  intros Hn. unfold number_to_string.
  destruct n as [|p|p]; [| |lia]; apply uint_units_digits.
Qed.

Lemma number_to_string_no_dot (n : Z) : ~ In dot (number_to_string n).
Proof.
  unfold number_to_string.
  assert (H : forall d, ~ In dot (uint_units d)).
  { intros d Hin. pose proof (uint_units_digits d) as Hd.
    rewrite List.Forall_forall in Hd. specialize (Hd dot Hin).
    unfold dot in Hd. lia. }
  destruct (Z.to_int n); [apply H|].
  intros [Heq|Hin]; [discriminate|exact (H d Hin)].
Qed.

(** The key ends with the extension of the declared name, so both have the
    same extension, as long as the random token has no dot. *)
Theorem safeBlobName_keeps_extension (amb : Ambient) (filePath : jsstring) :
  includes (randomId amb) dot = false ->
  extension (safeBlobName amb filePath) = extension filePath.
Proof.
  intros Hrandom. unfold safeBlobName.
  destruct (hasNonAsciiChars filePath); [|reflexivity].
  rewrite 3!app_assoc, extension_after_prefix; [apply extension_idempotent|].
  intros Hin.
  repeat (apply in_app_or in Hin as [Hin|Hin]).
  - vm_compute in Hin. intuition discriminate.
  - exact (number_to_string_no_dot _ Hin).
  - vm_compute in Hin. intuition discriminate.
  - apply KeyFacts.includes_In in Hin. congruence.
Qed.

Lemma safeBlobName_keeps_extension_witness :
  includes (randomId sample_ambient) dot = false
  /\ extension (safeBlobName sample_ambient thai_txt) = extension thai_txt.
Proof.
  split; [reflexivity|].
  apply (safeBlobName_keeps_extension sample_ambient thai_txt). reflexivity.
Defined.

Lemma uint_units_injective (d d' : Decimal.uint) :
  uint_units d = uint_units d' -> d = d'.
Proof.
  revert d'.
  induction d; intros d'; destruct d'; cbn [uint_units]; unfold digit_unit;
    intros H; try discriminate H; try reflexivity;
    injection H as H; f_equal; auto.
Qed.

Lemma digits_before_hyphen (d d' rest rest' : jsstring) :
  Forall (fun u => 48 <= u <= 57) d -> Forall (fun u => 48 <= u <= 57) d' ->
  d ++ 45 :: rest = d' ++ 45 :: rest' -> d = d'.
Proof.
  intros Hd. revert d'.
  induction Hd as [|a d Ha _ IH]; intros d' Hd' Heq;
    destruct Hd' as [|a' d' Ha' Hd']; cbn [app] in Heq.
  - reflexivity.
  - injection Heq as <- _. lia.
  - injection Heq as -> _. lia.
  - injection Heq as -> Heq. f_equal. exact (IH d' Hd' Heq).
Qed.

(** Two uploads of names that are not ASCII, made at different
    milliseconds, never get the same key. *)
Theorem safeBlobName_distinct_times (amb amb' : Ambient)
    (filePath filePath' : jsstring) :
  hasNonAsciiChars filePath = true -> hasNonAsciiChars filePath' = true ->
  0 <= getTime amb -> 0 <= getTime amb' -> getTime amb <> getTime amb' ->
  safeBlobName amb filePath <> safeBlobName amb' filePath'.
Proof.
  intros Hf Hf' Ht Ht' Hne Heq. apply Hne.
  unfold safeBlobName in Heq. rewrite Hf, Hf' in Heq.
  apply app_inv_head in Heq.
  change (lit "-") with [45] in Heq. cbn [app] in Heq.
  apply digits_before_hyphen in Heq;
    [|apply number_to_string_digits; assumption..].
  unfold number_to_string in Heq.
  apply DecimalZ.to_int_inj.
  destruct (getTime amb) as [|p|p], (getTime amb') as [|p'|p'];
    try lia; cbn [Z.to_int] in *; f_equal; apply uint_units_injective, Heq.
Qed.

Lemma safeBlobName_distinct_times_witness :
  hasNonAsciiChars thai_txt = true /\ hasNonAsciiChars thai_dot_thai = true
  /\ 0 <= 1700000000000 /\ 0 <= 1700000000001
  /\ 1700000000000 <> 1700000000001
  /\ safeBlobName sample_ambient thai_txt
     <> safeBlobName {| getTime := 1700000000001;
                        toISOString := toISOString sample_ambient;
                        random36 := random36 sample_ambient |} thai_dot_thai.
Proof.
  repeat split; try reflexivity; try lia.
  apply (safeBlobName_distinct_times sample_ambient
           {| getTime := 1700000000001;
              toISOString := toISOString sample_ambient;
              random36 := random36 sample_ambient |} thai_txt thai_dot_thai);
    try reflexivity; cbn [getTime sample_ambient]; lia.
Defined.

(** ** Upload followed by a read *)

Lemma from_utf8_nonempty (x : jsstring) :
  x <> [] -> Buffer.from_utf8 x <> [].
Proof.
  destruct x as [|u x]; [congruence|]. intros _. cbn [Buffer.from_utf8].
  unfold Buffer.utf8_of_code_point, Buffer.replacement_bytes.
  repeat match goal with
  | |- context [if ?b then _ else _] => destruct b
  | |- context [match ?l with [] => _ | _ :: _ => _ end] => destruct l
  end; discriminate.
Qed.

Lemma encode_nonempty (x : jsstring) : x <> [] -> encode x <> [].
Proof.
  intros Hx%from_utf8_nonempty. unfold encode.
  destruct (Buffer.from_utf8 x) as [|a [|b [|c r]]]; [congruence|..];
    discriminate.
Qed.

Lemma truthy_encode (x : jsstring) :
  x <> [] -> truthy (Some (encode x)) = true.
Proof.
  intros Hx%encode_nonempty. destruct (encode x); [congruence|reflexivity].
Qed.

(** On an account that keeps metadata names as written,
    [getOriginalFileName] recovers the declared name of an uploaded file
    from the stored blob, for every well-formed name that is not empty. *)
Theorem upload_then_getOriginalFileName (amb : Ambient)
    (filePath : jsstring) (fileBuffer : buffer) (contentType : jsstring)
    (st : gmap jsstring Blob) :
  isWellFormed filePath = true -> filePath <> [] ->
  exists result st',
    uploadFileToBlob (memory_client verbatim) amb filePath fileBuffer
      contentType st = inr (result, st')
    /\ getOriginalFileName (memory_client verbatim)
         (UploadResult.blobName result) st' = Some filePath.
Proof.
  intros Hwf Hne. unfold uploadFileToBlob.
  destruct (UploadFacts.encodeURIComponent_well_formed filePath Hwf)
    as [utf8 ->].
  cbn [upload getProperties memory_client]. rewrite lookup_insert_eq.
  eexists _, _. split; [reflexivity|].
  cbn [UploadResult.blobName].
  unfold getOriginalFileName, getBlobMetadata.
  cbn [getProperties memory_client]. rewrite lookup_insert_eq.
  cbn [metadata verbatim property mbind option_bind].
  rewrite UploadFacts.upload_metadata_camel_case, (truthy_encode _ Hne).
  cbn [fmap option_fmap option_map].
  rewrite CodecFacts.decode_encode_well_formed by exact Hwf. reflexivity.
Qed.

Lemma upload_then_getOriginalFileName_witness :
  isWellFormed thai_txt = true /\ thai_txt <> []
  /\ exists result st',
       uploadFileToBlob (memory_client verbatim) sample_ambient thai_txt
         [1; 2; 3] (lit "text/plain") ∅ = inr (result, st')
       /\ getOriginalFileName (memory_client verbatim)
            (UploadResult.blobName result) st' = Some thai_txt.
Proof.
  assert (Hne : thai_txt <> []) by discriminate.
  split; [reflexivity|]. split; [exact Hne|].
  exact (upload_then_getOriginalFileName sample_ambient thai_txt [1; 2; 3]
           (lit "text/plain") ∅ eq_refl Hne).
Defined.

(** The metadata an account that lower-cases names gives back. *)
Lemma lower_case_upload_metadata (amb : Ambient) (token utf8 : jsstring) :
  lower_case_names (upload_metadata amb token utf8)
  = Some (<[key_originalfilename := token]>
            (<[lit "originalnameutf8" := utf8]>
               (<[lit "dateuploaded" := toISOString amb]> ∅))).
Proof. reflexivity. Qed.

(** On an account that returns metadata names in lower case, the listing
    that follows an upload shows the declared name as [decodedName] and the
    token as [originalName], for every well-formed name that is not empty,
    while [getOriginalFileName] finds nothing. *)
Theorem upload_then_listBlobs_lower_case (amb : Ambient)
    (filePath : jsstring) (fileBuffer : buffer) (contentType : jsstring)
    (st : gmap jsstring Blob) :
  isWellFormed filePath = true -> filePath <> [] ->
  exists result st' entries e,
    uploadFileToBlob (memory_client lower_case_names) amb filePath
      fileBuffer contentType st = inr (result, st')
    /\ listBlobs (memory_client lower_case_names) st' = inr entries
    /\ In e entries
    /\ ListEntry.name e = UploadResult.blobName result
    /\ ListEntry.decodedName e = Some filePath
    /\ ListEntry.originalName e = Some (encode filePath)
    /\ getOriginalFileName (memory_client lower_case_names)
         (UploadResult.blobName result) st' = None.
Proof.
  intros Hwf Hne. unfold uploadFileToBlob.
  destruct (UploadFacts.encodeURIComponent_well_formed filePath Hwf)
    as [utf8 ->].
  cbn [upload getProperties memory_client]. rewrite lookup_insert_eq.
  rewrite lower_case_upload_metadata.
  set (md := <[key_originalfilename := encode filePath]> _).
  set (blob := {| content := fileBuffer; blobContentType := contentType;
                  metadata := Some md |}).
  set (key := safeBlobName amb filePath).
  assert (Htoken : md !! key_originalfilename = Some (encode filePath))
    by apply lookup_insert_eq.
  assert (Hcamel : md !! key_originalFilename = None).
  { unfold md. rewrite !lookup_insert_ne by (vm_compute; discriminate).
    apply lookup_empty. }
  exists {| UploadResult.url := blob_url (memory_client lower_case_names) key;
            UploadResult.originalName := filePath;
            UploadResult.decodedName := decode (encode filePath);
            UploadResult.blobName := key |},
         (<[key := blob]> st).
  eexists.
  exists (list_entry (memory_client lower_case_names) key (Some md)).
  split; [reflexivity|].
  split; [apply ListingFacts.listBlobs_memory|].
  split; [|split; [reflexivity|]].
  - apply list_elem_of_In.
    apply (list_elem_of_fmap_2
             (fun '(blobName, blob) =>
                list_entry (memory_client lower_case_names) blobName
                  (metadata blob)) _ (key, blob)).
    apply elem_of_map_to_list, lookup_insert_eq.
  - unfold list_entry.
    cbn [ListEntry.decodedName ListEntry.originalName UploadResult.blobName
         property mbind option_bind].
    rewrite Htoken, (truthy_encode _ Hne).
    cbn [fmap option_fmap option_map].
    rewrite CodecFacts.decode_encode_well_formed by exact Hwf.
    split; [reflexivity|]. split; [reflexivity|].
    unfold getOriginalFileName, getBlobMetadata.
    cbn [getProperties memory_client]. rewrite lookup_insert_eq.
    unfold blob. cbn [metadata property mbind option_bind].
    rewrite Hcamel. reflexivity.
Qed.

Lemma upload_then_listBlobs_lower_case_witness :
  isWellFormed thai_txt = true /\ thai_txt <> []
  /\ exists result st' entries e,
       uploadFileToBlob (memory_client lower_case_names) sample_ambient
         thai_txt [1; 2; 3] (lit "text/plain") ∅ = inr (result, st')
       /\ listBlobs (memory_client lower_case_names) st' = inr entries
       /\ In e entries
       /\ ListEntry.name e = UploadResult.blobName result
       /\ ListEntry.decodedName e = Some thai_txt
       /\ ListEntry.originalName e = Some (encode thai_txt)
       /\ getOriginalFileName (memory_client lower_case_names)
            (UploadResult.blobName result) st' = None.
Proof.
  assert (Hne : thai_txt <> []) by discriminate.
  split; [reflexivity|]. split; [exact Hne|].
  exact (upload_then_listBlobs_lower_case sample_ambient thai_txt [1; 2; 3]
           (lit "text/plain") ∅ eq_refl Hne).
Defined.

Lemma ascii_isWellFormed (s : jsstring) :
  test_non_ascii s = false -> isWellFormed s = true.
Proof.
  intros Hs%KeyFacts.test_non_ascii_false.
  induction Hs as [|u s Hu _ IH]; [reflexivity|].
  cbn [isWellFormed].
  rewrite (proj2 (Utf8Facts.is_high_surrogate_false u)) by lia.
  rewrite (proj2 (Utf8Facts.is_low_surrogate_false u)) by lia.
  rewrite IH, (proj2 (Z.leb_le 0 u)), (proj2 (Z.ltb_lt u 65536)) by lia.
  reflexivity.
Qed.

(** A file with an ASCII name replaces the stored file of the same name:
    after two uploads under one ASCII name the account is as if only the
    second had been made. *)
Theorem upload_ascii_name_replaces (persist : Metadata -> option Metadata)
    (amb1 amb2 : Ambient) (filePath : jsstring) (buffer1 buffer2 : buffer)
    (type1 type2 : jsstring) (st : gmap jsstring Blob) :
  hasNonAsciiChars filePath = false ->
  exists result1 st1 result2 st2,
    uploadFileToBlob (memory_client persist) amb1 filePath buffer1 type1 st
    = inr (result1, st1)
    /\ uploadFileToBlob (memory_client persist) amb2 filePath buffer2 type2
         st1 = inr (result2, st2)
    /\ UploadResult.blobName result1 = filePath
    /\ UploadResult.blobName result2 = filePath
    /\ uploadFileToBlob (memory_client persist) amb2 filePath buffer2 type2
         st = inr (result2, st2).
Proof.
  intros Hascii.
  pose proof (ascii_isWellFormed filePath Hascii) as Hwf.
  unfold uploadFileToBlob, safeBlobName. rewrite Hascii.
  destruct (UploadFacts.encodeURIComponent_well_formed filePath Hwf)
    as [utf8 ->].
  cbn [upload getProperties memory_client].
  eexists _, _, _, _.
  split; [rewrite lookup_insert_eq; reflexivity|].
  split; [rewrite lookup_insert_eq; reflexivity|].
  split; [reflexivity|]. split; [reflexivity|].
  rewrite lookup_insert_eq, insert_insert_eq. reflexivity.
Qed.

Lemma upload_ascii_name_replaces_witness :
  hasNonAsciiChars (lit "report.pdf") = false
  /\ exists result1 st1 result2 st2,
       uploadFileToBlob (memory_client verbatim) sample_ambient
         (lit "report.pdf") [1] (lit "application/pdf") ∅
       = inr (result1, st1)
       /\ uploadFileToBlob (memory_client verbatim) sample_ambient
            (lit "report.pdf") [2] (lit "text/plain") st1
          = inr (result2, st2)
       /\ UploadResult.blobName result1 = lit "report.pdf"
       /\ UploadResult.blobName result2 = lit "report.pdf"
       /\ uploadFileToBlob (memory_client verbatim) sample_ambient
            (lit "report.pdf") [2] (lit "text/plain") ∅
          = inr (result2, st2).
Proof.
  split; [reflexivity|].
  exact (upload_ascii_name_replaces verbatim sample_ambient sample_ambient
           (lit "report.pdf") [1] [2] (lit "application/pdf")
           (lit "text/plain") ∅ eq_refl).
Defined.

(** ** More on the listing *)

(** A listing succeeds exactly when the enumeration and the metadata read
    of every enumerated blob succeed, and then has one entry per blob, in
    the order of enumeration, built from the metadata read for it. *)
Theorem listBlobs_inr_iff {E S : Type} (c : ContainerClient E S) (st : S)
    (entries : list ListEntry.t) :
  listBlobs c st = inr entries
  <-> exists read : list (jsstring * option Metadata),
        listBlobsFlat c st = inr read.*1
        /\ Forall (fun '(blobName, md) => getProperties c blobName st = inr md)
                  read
        /\ entries = (fun '(blobName, md) => list_entry c blobName md) <$> read.
Proof.
  unfold listBlobs. split.
  - destruct (listBlobsFlat c st) as [e|names]; [discriminate|].
    intros (es & -> & Hall)%ListingFacts.listBlobs_loop_inr. cbn [app].
    induction Hall as [|blobName e names es (md & Hmd & ->) _
                         (read & Hnames & Hread & ->)].
    + exists []. repeat split. constructor.
    + exists ((blobName, md) :: read). injection Hnames as ->.
      repeat split. constructor; assumption.
  - intros (read & -> & Hread & ->).
    rewrite (ListingFacts.listBlobs_loop_reads c st read Hread).
    reflexivity.
Qed.

(** The first metadata read that fails ends the listing with its error:
    the entries built before it are lost. *)
Theorem listBlobs_read_error {E S : Type} (c : ContainerClient E S) (st : S)
    (before after : list jsstring) (blobName : jsstring) (e : E) :
  listBlobsFlat c st = inr (before ++ blobName :: after) ->
  Forall (fun b => exists md, getProperties c b st = inr md) before ->
  getProperties c blobName st = inl e ->
  listBlobs c st = inl e.
Proof.
  intros Hflat Hbefore Hfail. unfold listBlobs. rewrite Hflat. clear Hflat.
  generalize (@nil ListEntry.t).
  induction Hbefore as [|b before [md Hmd] _ IH]; intros blobs;
    cbn [app listBlobs_loop]; unfold getBlobMetadata.
  - rewrite Hfail. reflexivity.
  - rewrite Hmd. apply IH.
Qed.

(** ** The file list *)

(** For every entry of a listing, the name shown in the file list and the
    name passed on when the entry is clicked are the same. *)
Theorem displayed_name_is_clicked_name {E S : Type}
    (c : ContainerClient E S) (st : S) (entries : list ListEntry.t) :
  listBlobs c st = inr entries ->
  Forall (fun e => displayed_name e = clicked_name e) entries.
Proof.
  unfold listBlobs.
  destruct (listBlobsFlat c st) as [e|names]; [discriminate|].
  intros (es & -> & Hall)%ListingFacts.listBlobs_loop_inr. cbn [app].
  induction Hall as [|blobName e names es (md & _ & ->) _ IH];
    constructor; [|exact IH].
  unfold displayed_name, clicked_name.
  destruct (ListingFacts.list_entry_names c blobName md)
    as [(_ & -> & ->)|(token & _ & Hne & -> & ->)]; [reflexivity|].
  destruct token; [congruence|reflexivity].
Qed.

Lemma displayed_name_is_clicked_name_witness :
  listBlobs (memory_client verbatim) corrupted_container
  = inr ((fun '(blobName, blob) =>
            list_entry (memory_client verbatim) blobName (metadata blob))
           <$> map_to_list corrupted_container)
  /\ Forall (fun e => displayed_name e = clicked_name e)
       ((fun '(blobName, blob) =>
           list_entry (memory_client verbatim) blobName (metadata blob))
          <$> map_to_list corrupted_container).
Proof.
  split; [apply ListingFacts.listBlobs_memory|].
  apply (displayed_name_is_clicked_name (memory_client verbatim)
           corrupted_container).
  apply ListingFacts.listBlobs_memory.
Defined.

Lemma listBlobs_read_error_witness :
  listBlobsFlat stale_client {[ lit "a.txt" := blob_with None ]}
  = inr ([lit "a.txt"] ++ lit "deleted.bin" :: [])
  /\ Forall (fun b => exists md,
               getProperties stale_client b
                 {[ lit "a.txt" := blob_with None ]} = inr md)
            [lit "a.txt"]
  /\ getProperties stale_client (lit "deleted.bin")
       {[ lit "a.txt" := blob_with None ]} = inl BlobNotFound
  /\ listBlobs stale_client {[ lit "a.txt" := blob_with None ]}
     = inl BlobNotFound.
Proof.
  assert (H1 : listBlobsFlat stale_client {[ lit "a.txt" := blob_with None ]}
               = inr ([lit "a.txt"] ++ lit "deleted.bin" :: []))
    by (vm_compute; reflexivity).
  assert (H2 : Forall (fun b => exists md,
                         getProperties stale_client b
                           {[ lit "a.txt" := blob_with None ]} = inr md)
                      [lit "a.txt"]).
  { constructor; [|constructor]. exists None. vm_compute. reflexivity. }
  assert (H3 : getProperties stale_client (lit "deleted.bin")
                 {[ lit "a.txt" := blob_with None ]} = inl BlobNotFound)
    by (vm_compute; reflexivity).
  split; [exact H1|]. split; [exact H2|]. split; [exact H3|].
  exact (listBlobs_read_error stale_client _ _ _ _ _ H1 H2 H3).
Defined.

(** ** The upload route *)

Lemma string_or_same (a : jsstring) : string_or a a = a.
Proof. destruct a; reflexivity. Qed.

(** A response with status 200 reports the declared name in all three name
    fields, the derived key as [blobName] and the URL of that key, and
    echoes the type and the size of the request. *)
Theorem post_upload_success {E S : Type} (account : AccountClient E S)
    (c : ContainerClient E S) (amb : Ambient) (file : MulterFile.t)
    (st : S) :
  is_jsstring (MulterFile.originalname file) ->
  status (post_upload account c amb (Some file) st).1 = 200 ->
  exists st2,
    (post_upload account c amb (Some file) st).2 = Some st2
    /\ body (post_upload account c amb (Some file) st).1
       = Success (lit "File uploaded successfully to Azure Blob Storage")
           {| FileJson.filename := MulterFile.originalname file;
              FileJson.originalname := MulterFile.originalname file;
              FileJson.decodedName := MulterFile.originalname file;
              FileJson.blobName :=
                safeBlobName amb (MulterFile.originalname file);
              FileJson.mimetype := MulterFile.mimetype file;
              FileJson.size := MulterFile.size file;
              FileJson.url :=
                blob_url c (safeBlobName amb (MulterFile.originalname file)) |}.
Proof.
  intros Hjs. unfold post_upload.
  destruct (ensureContainerExists account st) as [e|st1]; [discriminate|].
  destruct (URI.encodeURIComponent (MulterFile.originalname file))
    as [utf8|] eqn:Huri; [|discriminate].
  destruct (uploadFileToBlob c amb _ _ _ st1) as [err|[result st2]] eqn:Hup;
    [discriminate|].
  intros _. exists st2. split; [reflexivity|].
  apply UploadFacts.uploadFileToBlob_inr in Hup
    as (_ & _ & _ & _ & _ & ->).
  cbn [fst body UploadResult.originalName UploadResult.decodedName
       UploadResult.blobName UploadResult.url].
  rewrite CodecFacts.decode_encode_well_formed
    by exact (encodeURIComponent_Some_well_formed _ Hjs utf8 Huri).
  rewrite string_or_same. reflexivity.
Qed.

Lemma post_upload_success_witness :
  is_jsstring thai_txt
  /\ status (post_upload memory_account (memory_client verbatim)
               sample_ambient
               (Some {| MulterFile.originalname := thai_txt;
                        MulterFile.buffer := [1; 2; 3];
                        MulterFile.mimetype := lit "text/plain";
                        MulterFile.size := 3 |}) ∅).1 = 200
  /\ exists st2,
       (post_upload memory_account (memory_client verbatim) sample_ambient
          (Some {| MulterFile.originalname := thai_txt;
                   MulterFile.buffer := [1; 2; 3];
                   MulterFile.mimetype := lit "text/plain";
                   MulterFile.size := 3 |}) ∅).2 = Some st2
       /\ body (post_upload memory_account (memory_client verbatim)
                  sample_ambient
                  (Some {| MulterFile.originalname := thai_txt;
                           MulterFile.buffer := [1; 2; 3];
                           MulterFile.mimetype := lit "text/plain";
                           MulterFile.size := 3 |}) ∅).1
          = Success (lit "File uploaded successfully to Azure Blob Storage")
              {| FileJson.filename := thai_txt;
                 FileJson.originalname := thai_txt;
                 FileJson.decodedName := thai_txt;
                 FileJson.blobName := safeBlobName sample_ambient thai_txt;
                 FileJson.mimetype := lit "text/plain";
                 FileJson.size := 3;
                 FileJson.url :=
                   blob_url (memory_client verbatim)
                     (safeBlobName sample_ambient thai_txt) |}.
Proof.
  assert (H : is_jsstring thai_txt).
  { unfold is_jsstring, is_code_unit, thai_txt. repeat constructor; lia. }
  assert (H200 :
    status (post_upload memory_account (memory_client verbatim)
              sample_ambient
              (Some {| MulterFile.originalname := thai_txt;
                       MulterFile.buffer := [1; 2; 3];
                       MulterFile.mimetype := lit "text/plain";
                       MulterFile.size := 3 |}) ∅).1 = 200)
    by (vm_compute; reflexivity).
  split; [exact H|]. split; [exact H200|].
  exact (post_upload_success memory_account (memory_client verbatim)
           sample_ambient
           {| MulterFile.originalname := thai_txt;
              MulterFile.buffer := [1; 2; 3];
              MulterFile.mimetype := lit "text/plain";
              MulterFile.size := 3 |} ∅ H H200).
Defined.

(** A declared name with a lone surrogate is answered with status 500 and
    "Internal server error during file upload" once the container check
    has passed; the blob upload is not started and the account stays as the
    container check left it. *)
Theorem post_upload_lone_surrogate {E S : Type} (account : AccountClient E S)
    (c : ContainerClient E S) (amb : Ambient) (file : MulterFile.t)
    (st st1 : S) :
  is_jsstring (MulterFile.originalname file) ->
  isWellFormed (MulterFile.originalname file) = false ->
  ensureContainerExists account st = inr st1 ->
  post_upload account c amb (Some file) st
  = ({| status := 500;
        body := Failure (lit "Internal server error during file upload")
                  (Some URIError) |}, Some st1).
Proof.
  intros Hjs Hill Hensure. unfold post_upload. rewrite Hensure.
  destruct (URI.encodeURIComponent (MulterFile.originalname file))
    as [utf8|] eqn:Huri; [|reflexivity].
  rewrite (encodeURIComponent_Some_well_formed _ Hjs utf8 Huri) in Hill.
  discriminate.
Qed.

Lemma post_upload_lone_surrogate_witness :
  is_jsstring [55296; 46; 97]
  /\ isWellFormed [55296; 46; 97] = false
  /\ ensureContainerExists memory_account ∅ = inr ∅
  /\ post_upload memory_account (memory_client verbatim) sample_ambient
       (Some {| MulterFile.originalname := [55296; 46; 97];
                MulterFile.buffer := [1];
                MulterFile.mimetype := lit "text/plain";
                MulterFile.size := 1 |}) ∅
     = ({| status := 500;
           body := Failure (lit "Internal server error during file upload")
                     (Some URIError) |}, Some ∅).
Proof.
  assert (H : is_jsstring [55296; 46; 97]).
  { unfold is_jsstring, is_code_unit. repeat constructor; lia. }
  split; [exact H|]. split; [reflexivity|]. split; [reflexivity|].
  exact (post_upload_lone_surrogate memory_account (memory_client verbatim)
           sample_ambient
           {| MulterFile.originalname := [55296; 46; 97];
              MulterFile.buffer := [1];
              MulterFile.mimetype := lit "text/plain";
              MulterFile.size := 1 |} ∅ ∅ H eq_refl eq_refl).
Defined.

(** The response "Error uploading file to Azure Blob Storage" always
    carries an error raised by the storage client, never the [URIError] of
    the name. *)
Theorem post_upload_upload_error {E S : Type} (account : AccountClient E S)
    (c : ContainerClient E S) (amb : Ambient)
    (req_file : option MulterFile.t) (st : S) (error : thrown E) :
  body (post_upload account c amb req_file st).1
  = Failure (lit "Error uploading file to Azure Blob Storage") (Some error) ->
  exists e, error = ClientError e.
Proof.
  unfold post_upload.
  destruct req_file as [file|]; [|discriminate].
  destruct (ensureContainerExists account st) as [e|st1];
    [intros H; vm_compute in H; discriminate|].
  destruct (URI.encodeURIComponent (MulterFile.originalname file))
    as [utf8|] eqn:Huri; [|intros H; vm_compute in H; discriminate].
  destruct (uploadFileToBlob c amb _ _ _ st1) as [err|[result st2]] eqn:Hup;
    [|discriminate].
  intros [= <-]. unfold uploadFileToBlob in Hup. rewrite Huri in Hup.
  destruct (upload c _ _ _ _ st1) as [e|st2]; [injection Hup as <-; eauto|].
  destruct (getProperties c _ st2) as [e|md];
    [injection Hup as <-; eauto|discriminate].
Qed.

Lemma post_upload_upload_error_witness :
  body (post_upload reachable_account unreachable_client sample_ambient
          (Some {| MulterFile.originalname := lit "report.pdf";
                   MulterFile.buffer := [1];
                   MulterFile.mimetype := lit "application/pdf";
                   MulterFile.size := 1 |}) tt).1
  = Failure (lit "Error uploading file to Azure Blob Storage")
      (Some (ClientError ServiceUnreachable))
  /\ exists e, ClientError ServiceUnreachable = ClientError e.
Proof.
  assert (H :
    body (post_upload reachable_account unreachable_client sample_ambient
            (Some {| MulterFile.originalname := lit "report.pdf";
                     MulterFile.buffer := [1];
                     MulterFile.mimetype := lit "application/pdf";
                     MulterFile.size := 1 |}) tt).1
    = Failure (lit "Error uploading file to Azure Blob Storage")
        (Some (ClientError ServiceUnreachable)))
    by (vm_compute; reflexivity).
  split; [exact H|].
  exact (post_upload_upload_error _ _ _ _ _ _ H).
Defined.

(** ** The upload form *)

Lemma array_includes_In (array : list jsstring) (x : jsstring) :
  UploadFile.array_includes array x = true <-> In x array.
Proof.
  unfold UploadFile.array_includes. rewrite existsb_exists. split.
  - intros (y & Hin & Hy). apply bool_decide_eq_true in Hy. subst y.
    exact Hin.
  - intros Hin. exists x. split; [exact Hin|].
    apply bool_decide_eq_true. reflexivity.
Qed.

(** The size test in bytes: more than the limit times 1024 * 1024. *)
Lemma greater_fileSizeInMB (f : UploadFile.File) (maxFileSizeInMB : Z) :
  UploadFile.greater (UploadFile.fileSizeInMB f)
    (QArith_base.inject_Z maxFileSizeInMB) = true
  <-> maxFileSizeInMB * 1048576 < UploadFile.size f.
Proof.
  unfold UploadFile.greater, UploadFile.fileSizeInMB.
  rewrite negb_true_iff, <- not_true_iff_false, QArith_base.Qle_bool_iff.
  unfold QArith_base.Qle, QArith_base.Qdiv, QArith_base.Qmult,
    QArith_base.Qinv, QArith_base.inject_Z.
  cbn [QArith_base.Qnum QArith_base.Qden Pos.mul]. lia.
Qed.

(** A selection is accepted exactly when a file is given, its type is in
    the list and its size is at most the limit times 1024 * 1024 bytes.
    An accepted file becomes the selected file and clears the error; a
    refused one sets an error and leaves the selected file as it was. *)
Theorem validateAndSetFile_accepts (allowedFileTypes : list jsstring)
    (maxFileSizeInMB : Z) (selectedFile : option UploadFile.File)
    (s : UploadFile.State) :
  (UploadFile.error
     (UploadFile.validateAndSetFile allowedFileTypes maxFileSizeInMB
        selectedFile s) = None
   <-> exists f, selectedFile = Some f
                 /\ In (UploadFile.type f) allowedFileTypes
                 /\ UploadFile.size f <= maxFileSizeInMB * 1048576)
  /\ UploadFile.file
       (UploadFile.validateAndSetFile allowedFileTypes maxFileSizeInMB
          selectedFile s)
     = match UploadFile.error
               (UploadFile.validateAndSetFile allowedFileTypes
                  maxFileSizeInMB selectedFile s) with
       | None => selectedFile
       | Some _ => UploadFile.file s
       end.
Proof.
  unfold UploadFile.validateAndSetFile.
  destruct selectedFile as [f|].
  - destruct (UploadFile.array_includes allowedFileTypes (UploadFile.type f))
      eqn:Htype; cbn [negb].
    + apply array_includes_In in Htype.
      destruct (UploadFile.greater _ _) eqn:Hsize;
        cbn [UploadFile.error UploadFile.file]; (split; [|reflexivity]).
      * apply greater_fileSizeInMB in Hsize. split; [discriminate|].
        intros (f' & [= <-] & _ & Hle). lia.
      * split; [|reflexivity]. intros _. exists f.
        repeat split; [exact Htype|].
        destruct (Z_le_gt_dec (UploadFile.size f)
                    (maxFileSizeInMB * 1048576)) as [Hle|Hgt];
          [exact Hle|].
        assert (Htrue : UploadFile.greater (UploadFile.fileSizeInMB f)
                          (QArith_base.inject_Z maxFileSizeInMB) = true)
          by (apply greater_fileSizeInMB; lia).
        congruence.
    + cbn [UploadFile.error UploadFile.file]. split; [|reflexivity].
      split; [discriminate|].
      intros (f' & [= <-] & Hin%array_includes_In & _). congruence.
  - cbn [UploadFile.error UploadFile.file]. split; [|reflexivity].
    split; [discriminate|]. intros (f & Hf & _). discriminate.
Qed.

(** Starting from 0, the progress shown after [n] ticks is 5 n per cent,
    capped at 90: the ticks alone never bring it to 100. *)
Theorem progress_after_ticks (n : nat) :
  UploadFile.progress_after n 0 = Z.min (5 * Z.of_nat n) 90.
Proof.
  induction n as [|n IH]; [reflexivity|].
  cbn [UploadFile.progress_after]. rewrite IH.
  unfold UploadFile.progress_tick.
  destruct (Z.leb_spec 90 (Z.min (5 * Z.of_nat n) 90)); lia.
Qed.
